(** * Tarkov Market map extractor: a model of
      [scripts/extract_tarkov_market_maps.py] and the properties of its
      selector probing, fallback, header normalisation and run summary.

    The script drives a browser page and writes files; both are modelled by
    explicit state passing.  A computation takes the state it works on (the
    document loaded in the page, the file system) and gives back a result or
    a Python exception, the new state, and the events it performed, in order
    (console lines, page calls, file-system calls). *)

From Stdlib Require Import ZArith Lia.
From stdpp Require Import gmap strings list fin_maps pretty.

Open Scope Z_scope.

(* ===================================================================== *)
(** * Python values *)
(* ===================================================================== *)

(** Exceptions the script can meet.  All are subclasses of [Exception], so
    an [except Exception] clause catches every one of them. *)
Inductive exn :=
| TimeoutError (msg : string)
| PlaywrightError (msg : string)
| OSError (msg : string)
| ValueError (msg : string).

(** [str(e)], as printed by the [f"...{e}"] of the handler in [main]. *)
Definition exn_str (e : exn) : string :=
  match e with
  | TimeoutError m | PlaywrightError m | OSError m | ValueError m => m
  end.

(** [len(s)].  Python's [len] counts code points and the [.length] of the
    page script counts UTF-16 units; they agree on markup of the Basic
    Multilingual Plane, which is what a character of the model stands for,
    so one measure serves for both. *)
Definition len (s : string) : Z := Z.of_nat (String.length s).

(** Truth value of a [str]: the empty string is false. *)
Definition str_truthy (s : string) : bool :=
  match s with
  | EmptyString => false
  | String _ _ => true
  end.

(** Truth value of a [str | None]. *)
Definition truthy (o : option string) : bool :=
  match o with
  | None => false
  | Some s => str_truthy s
  end.

(** [s.startswith(p)]. *)
Fixpoint startswith (s p : string) : bool :=
  match p with
  | EmptyString => true
  | String a p' =>
      match s with
      | EmptyString => false
      | String b s' => Ascii.eqb a b && startswith s' p'
      end
  end.

(** [sep.join(l)]. *)
Fixpoint str_join (sep : string) (l : list string) : string :=
  match l with
  | [] => EmptyString
  | [x] => x
  | x :: l' => x +:+ sep +:+ str_join sep l'
  end.

(** [s * n]. *)
Fixpoint str_repeat (s : string) (n : nat) : string :=
  match n with
  | O => EmptyString
  | S n' => s +:+ str_repeat s n'
  end.

(** [l.index(x)]: the position of the first element equal to [x]. *)
Fixpoint list_index {A} `{EqDecision A} (x : A) (l : list A) : option nat :=
  match l with
  | [] => None
  | y :: l' => if decide (y = x) then Some O else S <$> list_index x l'
  end.

Definition newline : string := String (Ascii.ascii_of_nat 10) EmptyString.
Definition dquote : string := String (Ascii.ascii_of_nat 34) EmptyString.

(* ===================================================================== *)
(** * Events and the computation monad *)
(* ===================================================================== *)

Inductive Event :=
| Print (line : string)
| Makedirs (path : string)
| OpenWrite (path : string)
| BrowserLaunch
| NewContext
| NewPage
| Goto (url : string)
| WaitForTimeout (ms : Z)
| QuerySelectorAll (selector : string)
| ElementEvaluate
| PageEvaluate
| BrowserClose.

(** A computation over a state [S]: the result or the exception raised, the
    state afterwards, the events performed. *)
Definition Py (S A : Type) : Type := S -> (exn + A) * S * list Event.

Definition ret {S A} (a : A) : Py S A := fun s => (inr a, s, []).

Definition raise {S A} (e : exn) : Py S A := fun s => (inl e, s, []).

Definition bind {S A B} (c : Py S A) (k : A -> Py S B) : Py S B :=
  fun s =>
    match c s with
    | (inl e, s1, t1) => (inl e, s1, t1)
    | (inr a, s1, t1) =>
        match k a s1 with
        | (r, s2, t2) => (r, s2, t1 ++ t2)
        end
    end.

(** [try: c  except Exception as e: h e]. *)
Definition try_except {S A} (c : Py S A) (h : exn -> Py S A) : Py S A :=
  fun s =>
    match c s with
    | (inl e, s1, t1) =>
        match h e s1 with
        | (r, s2, t2) => (r, s2, t1 ++ t2)
        end
    | (inr a, s1, t1) => (inr a, s1, t1)
    end.

Definition emit {S} (e : Event) : Py S unit := fun s => (inr tt, s, [e]).

Definition print {S} (line : string) : Py S unit := emit (Print line).

Declare Scope py_scope.
Delimit Scope py_scope with py.
Notation "x <- c ;; k" := (bind c (fun x => k))
  (at level 100, c at next level, right associativity) : py_scope.
Notation "c ;; k" := (bind c (fun _ => k))
  (at level 100, right associativity) : py_scope.
Open Scope py_scope.

Definition result_of {S A} (x : (exn + A) * S * list Event) : exn + A := x.1.1.
Definition state_of {S A} (x : (exn + A) * S * list Event) : S := x.1.2.
Definition trace_of {S A} (x : (exn + A) * S * list Event) : list Event := x.2.

(* ===================================================================== *)
(** * The browser page *)
(* ===================================================================== *)

(** An element handle: what [svg_element.evaluate("el => el.outerHTML")]
    gives, the serialized element or the exception of a stale handle. *)
Record ElementHandle := { outerHTML : exn + string }.

(** A loaded document, as the script can observe it. *)
Record Document := {
  (** [page.query_selector_all(selector)]: the matching elements in
      document order, or an exception. *)
  query_selector_all : string -> exn + list ElementHandle;
  (** [svg.outerHTML] for every [svg] of [document.querySelectorAll('svg')],
      in document order. *)
  document_svgs : list string;
  (** the exception of [page.evaluate], if the call fails. *)
  evaluate_fault : option exn
}.

Definition about_blank : Document :=
  {| query_selector_all := fun _ => inr [];
     document_svgs := [];
     evaluate_fault := None |}.

Record MapInfo := { name : string; url : string }.

Global Instance MapInfo_eq_dec : EqDecision MapInfo.
Proof. solve_decision. Defined.

(** [MAPS]. *)
Definition MAPS : list MapInfo :=
  [ {| name := "GroundZero"; url := "https://tarkov-market.com/maps/ground-zero" |};
    {| name := "Factory"; url := "https://tarkov-market.com/maps/factory" |};
    {| name := "Customs"; url := "https://tarkov-market.com/maps/customs" |};
    {| name := "Woods"; url := "https://tarkov-market.com/maps/woods" |};
    {| name := "Shoreline"; url := "https://tarkov-market.com/maps/shoreline" |};
    {| name := "Interchange"; url := "https://tarkov-market.com/maps/interchange" |};
    {| name := "Reserve"; url := "https://tarkov-market.com/maps/reserve" |};
    {| name := "Lighthouse"; url := "https://tarkov-market.com/maps/lighthouse" |};
    {| name := "StreetsOfTarkov"; url := "https://tarkov-market.com/maps/streets" |};
    {| name := "Labs"; url := "https://tarkov-market.com/maps/lab" |};
    {| name := "Labyrinth"; url := "https://tarkov-market.com/maps/labyrinth" |} ].

(** [svg_selectors] of [extract_map_svg]. *)
Definition svg_selectors : list string :=
  [ "svg.svg-map";
    ".map-container svg";
    ".map-wrapper svg";
    "svg[viewBox]";
    "#map svg";
    ".leaflet-container svg";
    "svg" ].

(** The script passed to [page.evaluate]: the largest [svg] of the
    document.  The loop state is [(largestSvg, maxSize)], starting from
    [(null, 0)]. *)
Definition largest_step (acc : option string * Z) (html : string)
  : option string * Z :=
  if acc.2 <? len html then (Some html, len html) else acc.

Definition largest_svg (svgs : list string) : option string :=
  (fold_left largest_step svgs (None, 0)).1.

(** [XML_HEADER] is the literal of line 136. *)
Definition XML_HEADER : string :=
  Eval cbv in
    "<?xml version=" +:+ dquote +:+ "1.0" +:+ dquote +:+ " encoding="
      +:+ dquote +:+ "UTF-8" +:+ dquote +:+ "?>" +:+ newline.

(** Lines 134-136: the header is added when the markup does not start with
    ['<?xml']. *)
Definition add_svg_header (svg_content : string) : string :=
  if negb (startswith svg_content "<?xml") then XML_HEADER +:+ svg_content
  else svg_content.

(* ===================================================================== *)
(** * The file system *)
(* ===================================================================== *)

Record FileSystem := {
  dirs : gset string;
  files : gmap string string
}.

(** The state of the process inside the browser block of [main]: the
    document loaded in the one page all targets share, and the disk. *)
Record Process := {
  page : Document;
  disk : FileSystem
}.

Definition on_page {A} (c : Py Document A) : Py Process A :=
  fun p =>
    match c (page p) with
    | (r, d, t) => (r, {| page := d; disk := disk p |}, t)
    end.

Definition on_disk {A} (c : Py FileSystem A) : Py Process A :=
  fun p =>
    match c (disk p) with
    | (r, fs, t) => (r, {| page := page p; disk := fs |}, t)
    end.

(** [page = await context.new_page()] up to [await browser.close()]: the
    page starts blank and is gone afterwards. *)
Definition with_new_page {A} (c : Py Process A) : Py FileSystem A :=
  fun fs =>
    match c {| page := about_blank; disk := fs |} with
    | (r, p, t) => (r, disk p, t)
    end.

(* ===================================================================== *)
(** * The script *)
(* ===================================================================== *)

Section Script.

(** The site: what [page.goto(url, wait_until="networkidle")] loads, or
    the exception it raises.  What the page shows after a navigation that
    raised is not fixed by the script, which never looks at it: the next
    call on the page is the [goto] of the next target. *)
Variable web : string -> exn + Document.

(** The operating system: the [OSError] it answers to a file-system call
    on a path, if any (for [os.makedirs], the [FileExistsError] of a regular
    file at the path included). *)
Variable fs_fault : string -> option exn.

(** What a write that fails leaves under the path.  [open(path, "w")]
    truncates the file before anything is written, so the outcome depends on
    where the failure comes: [None] when the file could not be opened, and
    is left as it was; the text that reached the file (empty, or a part of
    the content) when [f.write] or the closing of the file raised. *)
Variable write_residue : string -> string -> option string.

(** [os.path.join] of the platform, and [OUTPUT_DIR], which the script
    computes from its own location. *)
Variable path_join : string -> string -> string.
Variable OUTPUT_DIR : string.

(** ** Page calls *)

Definition page_goto (u : string) : Py Document unit :=
  fun doc =>
    match web u with
    | inl e => (inl e, doc, [Goto u])
    | inr d => (inr tt, d, [Goto u])
    end.

Definition page_wait_for_timeout (ms : Z) : Py Document unit :=
  emit (WaitForTimeout ms).

Definition page_query_selector_all (selector : string)
  : Py Document (list ElementHandle) :=
  fun doc => (query_selector_all doc selector, doc, [QuerySelectorAll selector]).

Definition element_evaluate_outerHTML (el : ElementHandle)
  : Py Document string :=
  fun doc => (outerHTML el, doc, [ElementEvaluate]).

Definition page_evaluate_largest_svg : Py Document (option string) :=
  fun doc =>
    (match evaluate_fault doc with
     | Some e => inl e
     | None => inr (largest_svg (document_svgs doc))
     end, doc, [PageEvaluate]).

(** ** File-system calls *)

(** [os.makedirs(d, exist_ok=True)]. *)
Definition os_makedirs (d : string) : Py FileSystem unit :=
  fun fs =>
    if decide (d ∈ dirs fs) then (inr tt, fs, [Makedirs d])
    else
      match fs_fault d with
      | Some e => (inl e, fs, [Makedirs d])
      | None =>
          (inr tt, {| dirs := {[ d ]} ∪ dirs fs; files := files fs |},
           [Makedirs d])
      end.

(** [with open(path, "w", encoding="utf-8") as f: f.write(content)]. *)
Definition write_file (path content : string) : Py FileSystem unit :=
  fun fs =>
    match fs_fault path with
    | Some e =>
        (inl e,
         match write_residue path content with
         | None => fs
         | Some residue =>
             {| dirs := dirs fs; files := <[ path := residue ]> (files fs) |}
         end,
         [OpenWrite path])
    | None =>
        (inr tt, {| dirs := dirs fs; files := <[ path := content ]> (files fs) |},
         [OpenWrite path])
    end.

(** ** [extract_map_svg] *)

(** The inner loop, lines 61-69, over the elements of one selector.  Its
    value is [svg_content] when the loop is left. *)
Fixpoint probe_elements (selector : string) (svg_elements : list ElementHandle)
  : Py Document (option string) :=
  match svg_elements with
  | [] => ret None
  | svg_element :: rest =>
      content <- element_evaluate_outerHTML svg_element ;;
      if str_truthy content && (10000 <? len content) then
        print ("    Found SVG with selector '" +:+ selector +:+ "' (size: "
                 +:+ pretty (String.length content) +:+ " chars)") ;;
        ret (Some content)
      else probe_elements selector rest
  end.

(** The body of the [try] of lines 57-72 for one selector. *)
Definition probe_selector (selector : string) : Py Document (option string) :=
  svg_elements <- page_query_selector_all selector ;;
  probe_elements selector svg_elements.

(** The outer loop, lines 56-75: [except Exception: continue] leaves
    [svg_content] at [None] and goes on with the next selector. *)
Fixpoint probe_selectors (selectors : list string)
  : Py Document (option string) :=
  match selectors with
  | [] => ret None
  | selector :: rest =>
      svg_content <- try_except (probe_selector selector)
                                (fun _ => ret None) ;;
      if truthy svg_content then ret svg_content
      else probe_selectors rest
  end.

Definition extract_map_svg (map_info : MapInfo) : Py Document (option string) :=
  print ("  Loading " +:+ name map_info +:+ "...") ;;
  page_goto (url map_info) ;;
  page_wait_for_timeout 3000 ;;
  svg_content <- probe_selectors svg_selectors ;;
  if negb (truthy svg_content) then
    print "    Trying JavaScript extraction..." ;;
    page_evaluate_largest_svg
  else ret svg_content.

(** ** [main] *)

(** [MAPS.index(map_info)]; the script calls it on an element of [MAPS]. *)
Definition maps_index {S} (maps : list MapInfo) (map_info : MapInfo)
  : Py S nat :=
  match list_index map_info maps with
  | Some i => ret i
  | None => raise (ValueError "list.index(x): x not in list")
  end.

(** The [try] block of lines 127-145 for one target, from the locals
    [extracted_count] and [failed_maps] to their new values. *)
Definition try_target (map_info : MapInfo)
    (extracted_count : nat) (failed_maps : list string)
  : Py Process (nat * list string) :=
  svg_content <- on_page (extract_map_svg map_info) ;;
  match svg_content with
  | Some content =>
      if str_truthy content then
        let output_path := path_join OUTPUT_DIR (name map_info +:+ ".svg") in
        let content := add_svg_header content in
        on_disk (write_file output_path content) ;;
        print ("  [OK] Saved: " +:+ output_path) ;;
        ret (S extracted_count, failed_maps)
      else
        print ("  [FAIL] Failed to extract SVG for " +:+ name map_info) ;;
        ret (extracted_count, failed_maps ++ [name map_info])
  | None =>
      print ("  [FAIL] Failed to extract SVG for " +:+ name map_info) ;;
      ret (extracted_count, failed_maps ++ [name map_info])
  end.

(** The handler of lines 147-149. *)
Definition except_target (map_info : MapInfo)
    (extracted_count : nat) (failed_maps : list string) (e : exn)
  : Py Process (nat * list string) :=
  print ("  [ERROR] Error extracting " +:+ name map_info +:+ ": "
           +:+ exn_str e) ;;
  ret (extracted_count, failed_maps ++ [name map_info]).

(** One iteration of the loop of lines 124-149. *)
Definition process_target (maps : list MapInfo) (map_info : MapInfo)
    (extracted_count : nat) (failed_maps : list string)
  : Py Process (nat * list string) :=
  i <- maps_index maps map_info ;;
  print (newline +:+ "[" +:+ pretty (i + 1)%nat +:+ "/"
           +:+ pretty (length maps) +:+ "] Extracting "
           +:+ name map_info +:+ "...") ;;
  try_except (try_target map_info extracted_count failed_maps)
             (except_target map_info extracted_count failed_maps).

(** The loop [for map_info in maps], at the point where the targets
    [done] have been processed and [todo] remain; the list iterated is
    [done ++ todo]. *)
Fixpoint main_loop (done todo : list MapInfo)
    (extracted_count : nat) (failed_maps : list string)
  : Py Process (nat * list string) :=
  match todo with
  | [] => ret (extracted_count, failed_maps)
  | map_info :: rest =>
      locals <- process_target (done ++ todo) map_info
                               extracted_count failed_maps ;;
      main_loop (done ++ [map_info]) rest locals.1 locals.2
  end.

(** The summary of lines 153-162. *)
Definition print_summary {S} (maps : list MapInfo)
    (extracted_count : nat) (failed_maps : list string) : Py S unit :=
  print (newline +:+ str_repeat "=" 60) ;;
  print "Extraction Complete!" ;;
  print (str_repeat "=" 60) ;;
  print ("Successfully extracted: " +:+ pretty extracted_count +:+ "/"
           +:+ pretty (length maps) +:+ " maps") ;;
  (match failed_maps with
   | [] => ret tt
   | _ :: _ => print ("Failed maps: " +:+ str_join ", " failed_maps)
   end) ;;
  print (newline +:+ "Maps saved to: " +:+ OUTPUT_DIR).

(** [main], with the list of targets as a parameter. *)
Definition main_on (maps : list MapInfo) : Py FileSystem unit :=
  print (str_repeat "=" 60) ;;
  print "Tarkov Market Map SVG Extractor" ;;
  print (str_repeat "=" 60) ;;
  os_makedirs OUTPUT_DIR ;;
  print ("Output directory: " +:+ OUTPUT_DIR +:+ newline) ;;
  print "Starting browser..." ;;
  emit BrowserLaunch ;;
  emit NewContext ;;
  locals <- with_new_page
              (emit NewPage ;;
               locals <- main_loop [] maps 0%nat [] ;;
               emit BrowserClose ;;
               ret locals) ;;
  print_summary maps locals.1 locals.2.

Definition main : Py FileSystem unit := main_on MAPS.

End Script.

(* ===================================================================== *)
(** * Observations on runs, and the notions the properties are stated in *)
(* ===================================================================== *)

(** The selectors passed to [page.query_selector_all], in call order. *)
Definition queried (t : list Event) : list string :=
  omap (fun e => match e with QuerySelectorAll s => Some s | _ => None end) t.

(** The URLs passed to [page.goto], in call order. *)
Definition visited (t : list Event) : list string :=
  omap (fun e => match e with Goto u => Some u | _ => None end) t.

(** The lines printed, in order. *)
Definition printed (t : list Event) : list string :=
  omap (fun e => match e with Print l => Some l | _ => None end) t.

(** The paths opened for writing, in call order. *)
Definition opened (t : list Event) : list string :=
  omap (fun e => match e with OpenWrite path => Some path | _ => None end) t.

(** The calls on the browser itself, in call order. *)
Definition browser_events (t : list Event) : list Event :=
  omap (fun e =>
          match e with
          | BrowserLaunch | NewContext | NewPage | BrowserClose => Some e
          | _ => None
          end) t.

(** The number of elements serialized and of page scripts evaluated. *)
Definition serializations (t : list Event) : nat :=
  length (omap (fun e => match e with ElementEvaluate => Some e | _ => None end) t).

Definition script_runs (t : list Event) : nat :=
  length (omap (fun e => match e with PageEvaluate => Some e | _ => None end) t).

(** The events an extraction can perform: all on the page. *)
Definition is_page_event (e : Event) : bool :=
  match e with
  | Print _ | Goto _ | WaitForTimeout _ | QuerySelectorAll _
  | ElementEvaluate | PageEvaluate => true
  | _ => false
  end.

(** The events the probing loops can perform. *)
Definition is_probe_event (e : Event) : bool :=
  match e with
  | Print _ | QuerySelectorAll _ | ElementEvaluate => true
  | _ => false
  end.

(** The size test of the probing loop: strictly more than 10,000
    characters. *)
Definition above_threshold (content : string) : bool := 10000 <? len content.

(** The serializations obtained from a list of handles, in order, up to the
    first handle whose evaluation raises. *)
Fixpoint serialized (els : list ElementHandle) : list string :=
  match els with
  | [] => []
  | el :: rest =>
      match outerHTML el with
      | inr content => content :: serialized rest
      | inl _ => []
      end
  end.

(** The serializations the probing loop can see under one selector: those
    of the matching elements, in document order, up to the first exception
    (none when the query itself raises). *)
Definition examined (doc : Document) (selector : string) : list string :=
  match query_selector_all doc selector with
  | inr els => serialized els
  | inl _ => []
  end.

(** No serialization seen under [selector] passes the size test. *)
Definition nothing_accepted (doc : Document) (selector : string) : Prop :=
  Forall (fun content => len content <= 10000) (examined doc selector).

Global Instance nothing_accepted_dec doc selector :
  Decision (nothing_accepted doc selector).
Proof. unfold nothing_accepted. apply _. Defined.

(** The value of [svg_content] after a [try] whose handler leaves it at
    [None]. *)
Definition caught {A} (r : exn + option A) : option A :=
  match r with
  | inl _ => None
  | inr o => o
  end.

(** The number of places of [s] where [p] starts. *)
Fixpoint str_count (s p : string) : nat :=
  match s with
  | EmptyString => O
  | String _ s' => ((if startswith s p then 1 else 0) + str_count s' p)%nat
  end.

(** The number of XML declaration openers in a markup string. *)
Definition xml_declarations (s : string) : nat := str_count s "<?xml".

(** ** The outcome of one target and of a run, as functions of the site *)

Section Outcome.

Variable web : string -> exn + Document.
Variable fs_fault : string -> option exn.
Variable write_residue : string -> string -> option string.
Variable path_join : string -> string -> string.
Variable OUTPUT_DIR : string.

(** What [extract_map_svg] gives for a target. *)
Definition extraction (map_info : MapInfo) : exn + option string :=
  result_of (extract_map_svg web map_info about_blank).

(** The file of a target. *)
Definition output_path (map_info : MapInfo) : string :=
  path_join OUTPUT_DIR (name map_info +:+ ".svg").

(** The write a target ends in, path and content, when its extraction
    gives markup and the file can be written. *)
Definition saved (map_info : MapInfo) : option (string * string) :=
  match extraction map_info with
  | inr (Some content) =>
      match fs_fault (output_path map_info) with
      | None => Some (output_path map_info, add_svg_header content)
      | Some _ => None
      end
  | _ => None
  end.

(** What the disk receives from a target, path and content: the write
    when it goes well, what a failed write left when it left something. *)
Definition written (map_info : MapInfo) : option (string * string) :=
  match extraction map_info with
  | inr (Some content) =>
      match fs_fault (output_path map_info) with
      | None => Some (output_path map_info, add_svg_header content)
      | Some _ =>
          match write_residue (output_path map_info) (add_svg_header content) with
          | Some residue => Some (output_path map_info, residue)
          | None => None
          end
      end
  | _ => None
  end.

(** A target succeeds when its extraction gives markup and its file is
    written; it fails otherwise: no markup, an exception of the extraction,
    or an exception of the write. *)
Definition target_succeeds (map_info : MapInfo) : bool :=
  match extraction map_info with
  | inr (Some _) =>
      match fs_fault (output_path map_info) with
      | None => true
      | Some _ => false
      end
  | _ => false
  end.

(** The name of a target when it does not end in a write. *)
Definition failure (map_info : MapInfo) : option string :=
  match saved map_info with
  | Some _ => None
  | None => Some (name map_info)
  end.

Definition apply_writes (ws : list (string * string))
    (fs : gmap string string) : gmap string string :=
  foldl (fun m w => <[ w.1 := w.2 ]> m) fs ws.

(** The content the last write of [ws] to [path] leaves there. *)
Fixpoint last_write (ws : list (string * string)) (path : string)
  : option string :=
  match ws with
  | [] => None
  | w :: ws' =>
      match last_write ws' path with
      | Some content => Some content
      | None => if decide (w.1 = path) then Some w.2 else None
      end
  end.

(** The disk after [os.makedirs(OUTPUT_DIR, exist_ok=True)] went well. *)
Definition with_output_dir (fs : FileSystem) : FileSystem :=
  if decide (OUTPUT_DIR ∈ dirs fs) then fs
  else {| dirs := {[ OUTPUT_DIR ]} ∪ dirs fs; files := files fs |}.

(** The counting line and the failure line of the summary. *)
Definition count_line (maps : list MapInfo) (extracted_count : nat) : string :=
  "Successfully extracted: " +:+ pretty extracted_count +:+ "/"
    +:+ pretty (length maps) +:+ " maps".

Definition failed_line (failed_maps : list string) : string :=
  "Failed maps: " +:+ str_join ", " failed_maps.

(** The line that opens the processing of a target: its position in
    [maps], from one, as [maps.index] finds it. *)
Definition progress_line (maps : list MapInfo) (map_info : MapInfo) : string :=
  newline +:+ "[" +:+ pretty (default 0%nat (list_index map_info maps) + 1)%nat
    +:+ "/" +:+ pretty (length maps) +:+ "] Extracting "
    +:+ name map_info +:+ "...".

(** What follows the extraction of a target: the write and its line, or
    the line of the failure. *)
Definition outcome_events (map_info : MapInfo) : list Event :=
  match extraction map_info with
  | inl e =>
      [Print ("  [ERROR] Error extracting " +:+ name map_info +:+ ": "
                +:+ exn_str e)]
  | inr None =>
      [Print ("  [FAIL] Failed to extract SVG for " +:+ name map_info)]
  | inr (Some _) =>
      match fs_fault (output_path map_info) with
      | Some e =>
          [OpenWrite (output_path map_info);
           Print ("  [ERROR] Error extracting " +:+ name map_info +:+ ": "
                    +:+ exn_str e)]
      | None =>
          [OpenWrite (output_path map_info);
           Print ("  [OK] Saved: " +:+ output_path map_info)]
      end
  end.

(** The events of one target of [maps], and of a loop over [todo]. *)
Definition target_trace (maps : list MapInfo) (map_info : MapInfo) : list Event :=
  Print (progress_line maps map_info)
    :: trace_of (extract_map_svg web map_info about_blank)
    ++ outcome_events map_info.

Definition loop_trace (maps todo : list MapInfo) : list Event :=
  concat (target_trace maps <$> todo).

(** The events of [main] up to the loop, and the lines of its summary. *)
Definition startup_trace : list Event :=
  [Print (str_repeat "=" 60); Print "Tarkov Market Map SVG Extractor";
   Print (str_repeat "=" 60); Makedirs OUTPUT_DIR;
   Print ("Output directory: " +:+ OUTPUT_DIR +:+ newline);
   Print "Starting browser..."; BrowserLaunch; NewContext; NewPage].

Definition summary_lines (maps : list MapInfo)
    (extracted_count : nat) (failed_maps : list string) : list string :=
  [newline +:+ str_repeat "=" 60; "Extraction Complete!"; str_repeat "=" 60;
   count_line maps extracted_count]
    ++ match failed_maps with
       | [] => []
       | _ :: _ => [failed_line failed_maps]
       end
    ++ [newline +:+ "Maps saved to: " +:+ OUTPUT_DIR].

(** The path a target is written to when its extraction gives markup. *)
Definition attempted_write (map_info : MapInfo) : option string :=
  match extraction map_info with
  | inr (Some _) => Some (output_path map_info)
  | _ => None
  end.

End Outcome.

(* ===================================================================== *)
(** * Concrete sites and disks *)
(* ===================================================================== *)

Module Fixture.

(** [posixpath.join] on two components. *)
Definition ends_with_sep (a : string) : bool :=
  startswith (String.rev a) "/".

Definition posix_join (a b : string) : string :=
  if startswith b "/" then b
  else if negb (str_truthy a) || ends_with_sep a then a +:+ b
  else a +:+ "/" +:+ b.

Definition OUT : string := "/repo/TarkovHelper/Assets/Maps".

Definition no_fault : string -> option exn := fun _ => None.

(** The file of [Factory] cannot be opened for writing. *)
Definition factory_read_only : string -> option exn :=
  fun path =>
    if String.eqb path "/repo/TarkovHelper/Assets/Maps/Factory.svg"
    then Some (OSError ("[Errno 13] Permission denied: "
                          +:+ "'/repo/TarkovHelper/Assets/Maps/Factory.svg'"))
    else None.

(** The disk fills up while the file of [Factory] is written. *)
Definition factory_disk_full : string -> option exn :=
  fun path =>
    if String.eqb path "/repo/TarkovHelper/Assets/Maps/Factory.svg"
    then Some (OSError "[Errno 28] No space left on device")
    else None.

(** The output directory cannot be created. *)
Definition no_output_dir : string -> option exn :=
  fun path =>
    if String.eqb path OUT then Some (OSError "[Errno 30] Read-only file system")
    else None.

(** A failed write leaves the file as it was (the file could not be
    opened), or empty (the failure came after the file was opened). *)
Definition untouched : string -> string -> option string := fun _ _ => None.

Definition truncated : string -> string -> option string :=
  fun _ _ => Some EmptyString.

Definition empty_disk : FileSystem := {| dirs := ∅; files := ∅ |}.

Definition element (html : string) : ElementHandle := {| outerHTML := inr html |}.

Definition stale : ElementHandle :=
  {| outerHTML := inl (PlaywrightError "Element is not attached to the DOM") |}.

(** An [svg] element of [11 + n] characters. *)
Definition svg_of_size (n : Z) : string :=
  "<svg>" +:+ str_repeat "a" (Z.to_nat n) +:+ "</svg>".

Definition svg_9999 : string := svg_of_size 9988.
Definition svg_10000 : string := svg_of_size 9989.
Definition svg_10001 : string := svg_of_size 9990.
Definition svg_12000 : string := svg_of_size 11989.

Definition icon_a : string := "<svg><path d='M0 0'/></svg>".
Definition icon_b : string := "<svg><path d='M1 1'/></svg>".
Definition icon_small : string := "<svg></svg>".

(** A page whose map is found by probing: a container-scoped selector
    matches one element of 9,999 characters, the attribute selector one of
    10,000 and one of 10,001, the unscoped selector all of them and a
    larger one. *)
Definition page_with_map : Document :=
  {| query_selector_all := fun selector =>
       if String.eqb selector ".map-container svg" then inr [element svg_9999]
       else if String.eqb selector "svg[viewBox]"
            then inr [element svg_10000; element svg_10001]
       else if String.eqb selector "svg"
            then inr [element icon_small; element svg_9999; element svg_10000;
                      element svg_10001; element svg_12000]
       else inr [];
     document_svgs := [icon_small; svg_9999; svg_10000; svg_10001; svg_12000];
     evaluate_fault := None |}.

(** A page with icons only: nothing passes the size test, two icons have
    the same, maximal, length. *)
Definition page_with_icons : Document :=
  {| query_selector_all := fun selector =>
       if String.eqb selector "svg"
       then inr [element icon_small; element icon_a; element icon_b]
       else inr [];
     document_svgs := [icon_small; icon_a; icon_b];
     evaluate_fault := None |}.

(** A page without any [svg]. *)
Definition page_without_svg : Document :=
  {| query_selector_all := fun _ => inr [];
     document_svgs := [];
     evaluate_fault := None |}.

(** A page on which the first query raises and the second meets a stale
    handle before the map; the attribute selector then finds the map. *)
Definition page_with_stale_handles : Document :=
  {| query_selector_all := fun selector =>
       if String.eqb selector "svg.svg-map"
       then inl (PlaywrightError "Execution context was destroyed")
       else if String.eqb selector ".map-container svg"
            then inr [element icon_small; stale; element svg_12000]
       else if String.eqb selector "svg[viewBox]" then inr [element svg_10001]
       else inr [];
     document_svgs := [icon_small; svg_12000; svg_10001];
     evaluate_fault := None |}.

(** Markup that starts with two XML declarations, and a page that
    serializes its only [svg] so. *)
Definition twice_declared : string :=
  XML_HEADER +:+ XML_HEADER +:+ icon_a.

Definition page_twice_declared : Document :=
  {| query_selector_all := fun _ => inr [];
     document_svgs := [twice_declared];
     evaluate_fault := None |}.

Definition factory : MapInfo :=
  {| name := "Factory"; url := "https://tarkov-market.com/maps/factory" |}.
Definition customs : MapInfo :=
  {| name := "Customs"; url := "https://tarkov-market.com/maps/customs" |}.
Definition woods : MapInfo :=
  {| name := "Woods"; url := "https://tarkov-market.com/maps/woods" |}.

(** A site on which [Factory] has its map, [Customs] does not load and
    [Woods] has icons only. *)
Definition site : string -> exn + Document :=
  fun u =>
    if String.eqb u "https://tarkov-market.com/maps/factory" then inr page_with_map
    else if String.eqb u "https://tarkov-market.com/maps/customs"
         then inl (TimeoutError "Timeout 30000ms exceeded.")
    else if String.eqb u "https://tarkov-market.com/maps/woods" then inr page_with_icons
    else inr page_without_svg.

(** A site on which every page serializes its [svg] with two
    declarations. *)
Definition site_twice_declared : string -> exn + Document :=
  fun _ => inr page_twice_declared.

(** A page without map on which the page script fails, and a page with a
    map on which it would. *)
Definition page_script_broken : Document :=
  {| query_selector_all := fun _ => inr [];
     document_svgs := [icon_a];
     evaluate_fault := Some (PlaywrightError "Execution context was destroyed") |}.

Definition page_map_script_broken : Document :=
  {| query_selector_all := fun selector =>
       if String.eqb selector "svg.svg-map" then inr [element svg_10001]
       else inr [];
     document_svgs := [svg_10001];
     evaluate_fault := Some (PlaywrightError "Execution context was destroyed") |}.

(** A site whose pages have a broken script: [Factory] has its map, the
    others have not. *)
Definition site_script_broken : string -> exn + Document :=
  fun u =>
    if String.eqb u "https://tarkov-market.com/maps/factory"
    then inr page_map_script_broken
    else inr page_script_broken.

(** A site that does not answer, and one on which every page has its
    map. *)
Definition site_down : string -> exn + Document :=
  fun _ => inl (TimeoutError "net::ERR_INTERNET_DISCONNECTED").

Definition site_up : string -> exn + Document :=
  fun _ => inr page_with_map.

(** A disk with the output directory, the file an earlier run saved for
    [Customs], and a file that is no target's. *)
Definition disk_with_old_files : FileSystem :=
  {| dirs := {[ OUT ]};
     files := {[ "/repo/TarkovHelper/Assets/Maps/Customs.svg" := "<svg>old</svg>";
                 "/repo/README.md" := "# Tarkov Item Helper" ]} |}.

(** A disk without the output directory that has the file of [Factory]. *)
Definition disk_with_old_factory : FileSystem :=
  {| dirs := ∅;
     files := {[ "/repo/TarkovHelper/Assets/Maps/Factory.svg" := "<svg>old</svg>" ]} |}.

End Fixture.

(* ===================================================================== *)
(** * Proofs *)
(* ===================================================================== *)

(** ** Strings and lists *)

Lemma above_threshold_truthy content :
  above_threshold content = true -> str_truthy content = true.
Proof.
  unfold above_threshold, len. destruct content; simpl; [|done].
  intros H. apply Z.ltb_lt in H. lia.
Qed.

Lemma accept_test content :
  str_truthy content && (10000 <? len content) = above_threshold content.
Proof.
  unfold above_threshold. destruct (10000 <? len content) eqn:E.
  - rewrite (above_threshold_truthy content E). done.
  - apply andb_false_r.
Qed.

Lemma truthy_find_above l :
  truthy (find above_threshold l) = bool_decide (is_Some (find above_threshold l)).
Proof.
  destruct (find above_threshold l) as [c|] eqn:E; simpl.
  - apply find_some in E as [_ E]. by rewrite (above_threshold_truthy c E).
  - done.
Qed.

Lemma find_app_first {A} (f : A -> bool) (l1 l2 : list A) :
  find f (l1 ++ l2) =
  match find f l1 with
  | Some x => Some x
  | None => find f l2
  end.
Proof. induction l1 as [|x l1 IH]; simpl; [done|]. by destruct (f x). Qed.

Lemma find_none_below l :
  find above_threshold l = None <-> Forall (fun c => len c <= 10000) l.
Proof.
  induction l as [|c l IH]; simpl.
  - split; [constructor|done].
  - unfold above_threshold at 1. destruct (10000 <? len c) eqn:E.
    + split; [done|]. intros H. inversion H; subst.
      apply Z.ltb_lt in E. lia.
    + rewrite IH. apply Z.ltb_ge in E. split.
      * intros H. by constructor.
      * intros H. by inversion H.
Qed.

Lemma queried_app t1 t2 : queried (t1 ++ t2) = queried t1 ++ queried t2.
Proof. apply omap_app. Qed.

Lemma visited_app t1 t2 : visited (t1 ++ t2) = visited t1 ++ visited t2.
Proof. apply omap_app. Qed.

Lemma printed_app t1 t2 : printed (t1 ++ t2) = printed t1 ++ printed t2.
Proof. apply omap_app. Qed.

Lemma queried_cons e t :
  queried (e :: t) =
  match e with
  | QuerySelectorAll s => s :: queried t
  | _ => queried t
  end.
Proof. by destruct e. Qed.

Lemma visited_cons e t :
  visited (e :: t) =
  match e with
  | Goto u => u :: visited t
  | _ => visited t
  end.
Proof. by destruct e. Qed.

Lemma printed_cons e t :
  printed (e :: t) =
  match e with
  | Print l => l :: printed t
  | _ => printed t
  end.
Proof. by destruct e. Qed.

Ltac trace_simpl :=
  repeat (rewrite ?queried_app, ?visited_app, ?printed_app,
            ?queried_cons, ?visited_cons, ?printed_cons; cbv beta iota);
  change (queried []) with (@nil string);
  change (visited []) with (@nil string);
  change (printed []) with (@nil string).

(** ** Computations, by their three components *)

Lemma run_eta {S A} (x : (exn + A) * S * list Event) :
  x = (result_of x, state_of x, trace_of x).
Proof. by destruct x as [[r s] t]. Qed.

Lemma bind_run {S A B} (c : Py S A) (k : A -> Py S B) s :
  bind c k s =
  match result_of (c s) with
  | inl e => (inl e, state_of (c s), trace_of (c s))
  | inr a =>
      (result_of (k a (state_of (c s))),
       state_of (k a (state_of (c s))),
       trace_of (c s) ++ trace_of (k a (state_of (c s))))
  end.
Proof.
  unfold bind. destruct (c s) as [[[e|a] s1] t1]; [done|].
  unfold result_of, state_of, trace_of; simpl.
  by destruct (k a s1) as [[r s2] t2].
Qed.

Lemma try_except_run {S A} (c : Py S A) (h : exn -> Py S A) s :
  try_except c h s =
  match result_of (c s) with
  | inl e =>
      (result_of (h e (state_of (c s))),
       state_of (h e (state_of (c s))),
       trace_of (c s) ++ trace_of (h e (state_of (c s))))
  | inr a => (inr a, state_of (c s), trace_of (c s))
  end.
Proof.
  unfold try_except. destruct (c s) as [[[e|a] s1] t1]; [|done].
  unfold result_of, state_of, trace_of; simpl.
  by destruct (h e s1) as [[r s2] t2].
Qed.

Lemma emit_run {S} (e : Event) (s : S) : emit e s = (inr tt, s, [e]).
Proof. done. Qed.

Lemma print_run {S} (line : string) (s : S) :
  print line s = (inr tt, s, [Print line]).
Proof. done. Qed.

Lemma ret_run {S A} (a : A) (s : S) : ret a s = (inr a, s, []).
Proof. done. Qed.

Lemma result_of_run {S A} (r : exn + A) (s : S) t : result_of (r, s, t) = r.
Proof. done. Qed.

Lemma state_of_run {S A} (r : exn + A) (s : S) t : state_of (r, s, t) = s.
Proof. done. Qed.

Lemma trace_of_run {S A} (r : exn + A) (s : S) t : trace_of (r, s, t) = t.
Proof. done. Qed.

Lemma bind_ok {S A B} (c : Py S A) (k : A -> Py S B) s a s1 t1 :
  c s = (inr a, s1, t1) ->
  bind c k s = (result_of (k a s1), state_of (k a s1), t1 ++ trace_of (k a s1)).
Proof. intros H. by rewrite bind_run, H. Qed.

Lemma bind_err {S A B} (c : Py S A) (k : A -> Py S B) s e s1 t1 :
  c s = (inl e, s1, t1) -> bind c k s = (inl e, s1, t1).
Proof. intros H. by rewrite bind_run, H. Qed.

Lemma bind_emit {S B} (e : Event) (k : unit -> Py S B) s :
  bind (emit e) k s = (result_of (k tt s), state_of (k tt s), e :: trace_of (k tt s)).
Proof. by rewrite (bind_ok _ _ _ tt s [e]). Qed.

Lemma bind_print {S B} (line : string) (k : unit -> Py S B) s :
  bind (print line) k s
  = (result_of (k tt s), state_of (k tt s), Print line :: trace_of (k tt s)).
Proof. apply bind_emit. Qed.

Ltac py_simpl :=
  repeat (rewrite ?bind_print, ?bind_emit, ?emit_run, ?print_run, ?ret_run,
            ?result_of_run, ?state_of_run, ?trace_of_run; cbv beta iota).

Ltac py_run :=
  repeat (rewrite ?bind_run, ?emit_run, ?print_run, ?ret_run,
            ?result_of_run, ?state_of_run, ?trace_of_run; cbv beta iota).

(** ** The probing loops *)

Lemma probe_elements_cons selector el rest doc :
  probe_elements selector (el :: rest) doc =
  match outerHTML el with
  | inl e => (inl e, doc, [ElementEvaluate])
  | inr content =>
      if above_threshold content then
        (inr (Some content), doc,
         [ElementEvaluate;
          Print ("    Found SVG with selector '" +:+ selector +:+ "' (size: "
                   +:+ pretty (String.length content) +:+ " chars)")])
      else
        (result_of (probe_elements selector rest doc),
         state_of (probe_elements selector rest doc),
         ElementEvaluate :: trace_of (probe_elements selector rest doc))
  end.
Proof.
  cbn [probe_elements]. rewrite bind_run.
  unfold element_evaluate_outerHTML. py_run.
  destruct (outerHTML el) as [e|content]; [done|].
  rewrite accept_test.
  destruct (above_threshold content); [|done].
  by py_run.
Qed.

(** The inner loop leaves the page as it is, queries and visits nothing,
    and its value is the first serialization above the threshold among
    those it can see. *)
Lemma probe_elements_spec selector els doc :
  state_of (probe_elements selector els doc) = doc
  /\ queried (trace_of (probe_elements selector els doc)) = []
  /\ visited (trace_of (probe_elements selector els doc)) = []
  /\ caught (result_of (probe_elements selector els doc))
     = find above_threshold (serialized els).
Proof.
  induction els as [|el rest IH]; [done|].
  rewrite probe_elements_cons. cbn [serialized].
  destruct (outerHTML el) as [e|content]; [done|].
  cbn [find].
  destruct (above_threshold content) eqn:E; [done|].
  destruct IH as (Hs & Hq & Hv & Hr).
  by py_run.
Qed.

Lemma probe_selector_spec selector doc :
  state_of (probe_selector selector doc) = doc
  /\ queried (trace_of (probe_selector selector doc)) = [selector]
  /\ visited (trace_of (probe_selector selector doc)) = []
  /\ caught (result_of (probe_selector selector doc))
     = find above_threshold (examined doc selector).
Proof.
  unfold probe_selector, examined. rewrite bind_run.
  unfold page_query_selector_all. py_run.
  destruct (query_selector_all doc selector) as [e|els]; [done|].
  destruct (probe_elements_spec selector els doc) as (Hs & Hq & Hv & Hr).
  py_run. cbn [app]. trace_simpl.
  by rewrite Hq, Hv.
Qed.

(** One selector inside its [try]: no exception leaves it. *)
Lemma try_probe_selector selector doc :
  try_except (probe_selector selector) (fun _ => ret None) doc
  = (inr (find above_threshold (examined doc selector)), doc,
     trace_of (probe_selector selector doc)).
Proof.
  destruct (probe_selector_spec selector doc) as (Hs & Hq & Hv & Hr).
  rewrite try_except_run, Hs, <- Hr.
  destruct (result_of (probe_selector selector doc)) as [e|o]; [|done].
  py_run. by rewrite app_nil_r.
Qed.

Lemma probe_selectors_cons selector rest doc :
  probe_selectors (selector :: rest) doc =
  match find above_threshold (examined doc selector) with
  | Some content =>
      (inr (Some content), doc, trace_of (probe_selector selector doc))
  | None =>
      (result_of (probe_selectors rest doc),
       state_of (probe_selectors rest doc),
       trace_of (probe_selector selector doc)
         ++ trace_of (probe_selectors rest doc))
  end.
Proof.
  cbn [probe_selectors]. rewrite bind_run, try_probe_selector. py_run.
  rewrite truthy_find_above.
  destruct (find above_threshold (examined doc selector)) as [c|] eqn:E.
  - rewrite bool_decide_eq_true_2 by eauto. py_run. by rewrite app_nil_r.
  - by rewrite bool_decide_eq_false_2 by (intros [x Hx]; discriminate).
Qed.

(** The outer loop never raises, leaves the page as it is, and its value is
    the first serialization above the threshold across the selectors. *)
Lemma probe_selectors_spec selectors doc :
  result_of (probe_selectors selectors doc)
  = inr (find above_threshold (concat (examined doc <$> selectors)))
  /\ state_of (probe_selectors selectors doc) = doc
  /\ visited (trace_of (probe_selectors selectors doc)) = [].
Proof.
  induction selectors as [|selector rest IH]; [done|].
  rewrite probe_selectors_cons.
  destruct (probe_selector_spec selector doc) as (_ & _ & Hv & _).
  rewrite fmap_cons. cbn [concat]. rewrite find_app_first.
  destruct (find above_threshold (examined doc selector)); [done|].
  destruct IH as (Hr & Hs & Hv').
  py_run. trace_simpl. by rewrite Hv, Hv'.
Qed.

(** What the outer loop queries: the selectors up to the one under which a
    serialization was accepted, all of them when none was. *)
Lemma probe_selectors_queried selectors doc :
  queried (trace_of (probe_selectors selectors doc)) `prefix_of` selectors
  /\ (forall content,
        result_of (probe_selectors selectors doc) = inr (Some content) ->
        exists pre selector post,
          selectors = pre ++ selector :: post
          /\ queried (trace_of (probe_selectors selectors doc)) = pre ++ [selector]
          /\ Forall (nothing_accepted doc) pre
          /\ find above_threshold (examined doc selector) = Some content)
  /\ (result_of (probe_selectors selectors doc) = inr None ->
      queried (trace_of (probe_selectors selectors doc)) = selectors).
Proof.
  induction selectors as [|selector rest IH].
  - split; [done|]. split; [|done]. intros c H. discriminate.
  - rewrite probe_selectors_cons.
    destruct (probe_selector_spec selector doc) as (_ & Hq & _ & _).
    destruct (find above_threshold (examined doc selector)) as [c|] eqn:E.
    + py_run. rewrite Hq.
      split; [by apply (prefix_cons selector [] rest), prefix_nil|].
      split; [|done]. intros c' [= <-].
      exists [], selector, rest. by repeat split.
    + destruct IH as (Hp & Hsome & Hnone).
      py_run. rewrite queried_app, Hq. cbn [app].
      split; [by apply prefix_cons|]. split.
      * intros c' Hc'. destruct (Hsome c' Hc') as (pre & s & post & -> & Hqq & Hpre & Hf).
        exists (selector :: pre), s, post. rewrite Hqq.
        repeat split; try done. constructor; [|done].
        by apply find_none_below.
      * intros H. by rewrite (Hnone H).
Qed.

(** ** The page script of the fallback *)

Lemma len_nonneg s : 0 <= len s.
Proof. unfold len. lia. Qed.

Lemma len_pos_truthy s : 0 < len s <-> str_truthy s = true.
Proof.
  unfold len. destruct s; simpl; split; try done; try lia.
Qed.

Lemma largest_step_run best m html :
  largest_step (best, m) html =
  if m <? len html then (Some html, len html) else (best, m).
Proof. done. Qed.

(** Elements no longer than the current maximum leave the loop state as it
    is. *)
Lemma largest_fold_keep post best m :
  Forall (fun x => len x <= m) post ->
  fold_left largest_step post (best, m) = (best, m).
Proof.
  induction 1 as [|x post Hx _ IH]; [done|].
  cbn [fold_left]. rewrite largest_step_run.
  destruct (m <? len x) eqn:E; [|done].
  apply Z.ltb_lt in E. lia.
Qed.

(** Elements strictly shorter than [h] keep the maximum strictly below the
    length of [h]. *)
Lemma largest_fold_below pre h best m :
  m < len h ->
  Forall (fun x => len x < len h) pre ->
  (fold_left largest_step pre (best, m)).2 < len h.
Proof.
  intros Hm Hpre. revert best m Hm.
  induction Hpre as [|x pre Hx _ IH]; intros best m Hm; [done|].
  cbn [fold_left]. rewrite largest_step_run.
  destruct (m <? len x); by apply IH.
Qed.

(** The loop from a state [(best, m)]: either nothing is longer than [m]
    and the state is unchanged, or the result is the first element of
    maximal length. *)
Lemma largest_fold_spec svgs best m :
  (fold_left largest_step svgs (best, m) = (best, m)
   /\ Forall (fun x => len x <= m) svgs)
  \/ (exists pre h post,
        svgs = pre ++ h :: post
        /\ fold_left largest_step svgs (best, m) = (Some h, len h)
        /\ m < len h
        /\ Forall (fun x => len x < len h) pre
        /\ Forall (fun x => len x <= len h) post).
Proof.
  revert best m. induction svgs as [|x l IH]; intros best m.
  - left. by split.
  - cbn [fold_left]. rewrite largest_step_run.
    destruct (m <? len x) eqn:E.
    + apply Z.ltb_lt in E. right.
      destruct (IH (Some x) (len x)) as [[Heq Hall]|(pre & h & post & -> & Heq & Hlt & Hpre & Hpost)].
      * exists [], x, l. by repeat split.
      * exists (x :: pre), h, post. repeat split; try done; [lia|].
        by constructor.
    + apply Z.ltb_ge in E.
      destruct (IH best m) as [[Heq Hall]|(pre & h & post & -> & Heq & Hlt & Hpre & Hpost)].
      * left. split; [done|]. by constructor.
      * right. exists (x :: pre), h, post. repeat split; try done.
        constructor; [lia|done].
Qed.

Lemma largest_svg_first_max pre h post :
  0 < len h ->
  Forall (fun x => len x < len h) pre ->
  Forall (fun x => len x <= len h) post ->
  largest_svg (pre ++ h :: post) = Some h.
Proof.
  intros Hh Hpre Hpost. unfold largest_svg.
  rewrite fold_left_app. cbn [fold_left].
  pose proof (largest_fold_below pre h None 0 Hh Hpre) as Hlt.
  destruct (fold_left largest_step pre (None, 0)) as [b m]. simpl in Hlt.
  rewrite largest_step_run.
  apply Z.ltb_lt in Hlt. rewrite Hlt.
  by rewrite largest_fold_keep.
Qed.

Lemma largest_svg_some svgs h :
  largest_svg svgs = Some h ->
  exists pre post,
    svgs = pre ++ h :: post
    /\ 0 < len h
    /\ Forall (fun x => len x < len h) pre
    /\ Forall (fun x => len x <= len h) post.
Proof.
  unfold largest_svg. intros H.
  destruct (largest_fold_spec svgs None 0) as [[Heq _]|(pre & h' & post & -> & Heq & Hlt & Hpre & Hpost)];
    rewrite Heq in H; [done|].
  injection H as ->. by exists pre, post.
Qed.

Lemma largest_svg_none svgs :
  largest_svg svgs = None <-> Forall (fun x => x = EmptyString) svgs.
Proof.
  unfold largest_svg. split.
  - intros H.
    destruct (largest_fold_spec svgs None 0) as [[_ Hall]|(pre & h' & post & -> & Heq & _)];
      [|by rewrite Heq in H].
    eapply Forall_impl; [exact Hall|]. intros x Hx. simpl in Hx.
    destruct x; [done|]. unfold len in Hx. simpl in Hx. lia.
  - intros H. rewrite largest_fold_keep; [done|].
    eapply Forall_impl; [exact H|]. by intros x ->.
Qed.

Lemma largest_svg_truthy svgs h :
  largest_svg svgs = Some h -> str_truthy h = true.
Proof.
  intros H. apply largest_svg_some in H as (pre & post & _ & Hh & _).
  by apply len_pos_truthy.
Qed.

(** ** [extract_map_svg] *)

Section Run.

Variable web : string -> exn + Document.
Variable fs_fault : string -> option exn.
Variable write_residue : string -> string -> option string.
Variable path_join : string -> string -> string.
Variable OUTPUT_DIR : string.

(** When navigation fails the exception leaves [extract_map_svg] before
    any selector is tried. *)
Lemma extract_map_svg_goto_fails m doc0 e :
  web (url m) = inl e ->
  extract_map_svg web m doc0
  = (inl e, doc0, [Print ("  Loading " +:+ name m +:+ "..."); Goto (url m)]).
Proof.
  intros H. unfold extract_map_svg. py_simpl.
  rewrite (bind_err _ _ doc0 e doc0 [Goto (url m)]);
    [done | unfold page_goto; by rewrite H].
Qed.

(** On a loaded document: the probing result when there is one, the
    result of the page script otherwise. *)
Lemma extract_map_svg_loaded m doc0 doc :
  web (url m) = inr doc ->
  extract_map_svg web m doc0 =
  match find above_threshold (concat (examined doc <$> svg_selectors)) with
  | Some content =>
      (inr (Some content), doc,
       [Print ("  Loading " +:+ name m +:+ "..."); Goto (url m);
        WaitForTimeout 3000]
         ++ trace_of (probe_selectors svg_selectors doc))
  | None =>
      (match evaluate_fault doc with
       | Some e => inl e
       | None => inr (largest_svg (document_svgs doc))
       end, doc,
       [Print ("  Loading " +:+ name m +:+ "..."); Goto (url m);
        WaitForTimeout 3000]
         ++ trace_of (probe_selectors svg_selectors doc)
         ++ [Print "    Trying JavaScript extraction..."; PageEvaluate])
  end.
Proof.
  intros H. unfold extract_map_svg. py_simpl.
  rewrite (bind_ok _ _ doc0 tt doc [Goto (url m)])
    by (unfold page_goto; by rewrite H).
  unfold page_wait_for_timeout. py_simpl.
  destruct (probe_selectors_spec svg_selectors doc) as (Hr & Hs & _).
  rewrite (bind_ok _ _ doc _ doc (trace_of (probe_selectors svg_selectors doc)))
    by (rewrite (run_eta (probe_selectors svg_selectors doc)) at 1;
        by rewrite Hr, Hs).
  pose proof (truthy_find_above (concat (examined doc <$> svg_selectors))) as Ht.
  destruct (find above_threshold (concat (examined doc <$> svg_selectors))) as [c|] eqn:E.
  - rewrite Ht. cbn [negb bool_decide]. rewrite bool_decide_eq_true_2 by eauto.
    cbn [negb]. py_simpl. by rewrite app_nil_r.
  - cbn [truthy negb]. py_simpl. unfold page_evaluate_largest_svg.
    py_simpl. done.
Qed.

(** The result does not depend on what the shared page showed before. *)
Lemma extract_map_svg_result m doc0 :
  result_of (extract_map_svg web m doc0) = extraction web m.
Proof.
  unfold extraction. destruct (web (url m)) as [e|doc] eqn:E.
  - by rewrite !(extract_map_svg_goto_fails m _ e E).
  - rewrite !(extract_map_svg_loaded m _ doc E).
    by destruct (find above_threshold (concat (examined doc <$> svg_selectors))).
Qed.

(** A target is visited once. *)
Lemma extract_map_svg_visited m doc0 :
  visited (trace_of (extract_map_svg web m doc0)) = [url m].
Proof.
  destruct (web (url m)) as [e|doc] eqn:E.
  - by rewrite (extract_map_svg_goto_fails m _ e E).
  - rewrite (extract_map_svg_loaded m _ doc E).
    destruct (probe_selectors_spec svg_selectors doc) as (_ & _ & Hv).
    destruct (find above_threshold (concat (examined doc <$> svg_selectors)));
      py_simpl; trace_simpl; rewrite Hv; done.
Qed.

(** Markup that is returned is never the empty string. *)
Lemma extraction_truthy m content :
  extraction web m = inr (Some content) -> str_truthy content = true.
Proof.
  unfold extraction. destruct (web (url m)) as [e|doc] eqn:E.
  - by rewrite (extract_map_svg_goto_fails m _ e E).
  - rewrite (extract_map_svg_loaded m _ doc E).
    destruct (find above_threshold (concat (examined doc <$> svg_selectors))) as [c|] eqn:F.
    + py_simpl. intros [= <-]. apply find_some in F as [_ F].
      by apply above_threshold_truthy.
    + py_simpl. destruct (evaluate_fault doc); [done|].
      intros [= H]. by apply largest_svg_truthy in H.
Qed.

(** ** One target *)

Lemma on_page_run {A} (c : Py Document A) p :
  on_page c p
  = (result_of (c (page p)),
     {| page := state_of (c (page p)); disk := disk p |},
     trace_of (c (page p))).
Proof. unfold on_page. by destruct (c (page p)) as [[r d] t]. Qed.

Lemma on_disk_run {A} (c : Py FileSystem A) p :
  on_disk c p
  = (result_of (c (disk p)),
     {| page := page p; disk := state_of (c (disk p)) |},
     trace_of (c (disk p))).
Proof. unfold on_disk. by destruct (c (disk p)) as [[r d] t]. Qed.

(** The [try] block of one target, case by case. *)
Lemma try_target_run m cnt failed p :
  try_target web fs_fault write_residue path_join OUTPUT_DIR m cnt failed p =
  let run := extract_map_svg web m (page p) in
  let path := output_path path_join OUTPUT_DIR m in
  (match extraction web m with
   | inl e => inl e
   | inr None => inr (cnt, failed ++ [name m])
   | inr (Some _) =>
       match fs_fault path with
       | Some e => inl e
       | None => inr (S cnt, failed)
       end
   end,
   {| page := state_of run;
      disk := {| dirs := dirs (disk p);
                 files := apply_writes
                            (option_list
                               (written web fs_fault write_residue path_join OUTPUT_DIR m))
                            (files (disk p)) |} |},
   trace_of run
     ++ match extraction web m with
        | inl _ => []
        | inr None => [Print ("  [FAIL] Failed to extract SVG for " +:+ name m)]
        | inr (Some _) =>
            match fs_fault path with
            | Some _ => [OpenWrite path]
            | None => [OpenWrite path; Print ("  [OK] Saved: " +:+ path)]
            end
        end).
Proof.
  cbv zeta. unfold try_target, written.
  rewrite bind_run, on_page_run. py_simpl.
  rewrite extract_map_svg_result.
  destruct (extraction web m) as [e|[content|]] eqn:E.
  - rewrite app_nil_r. by destruct (disk p).
  - rewrite (extraction_truthy m content E).
    rewrite bind_run, on_disk_run. py_simpl. unfold write_file, output_path.
    cbn [disk].
    destruct (fs_fault (path_join OUTPUT_DIR (name m +:+ ".svg"))).
    + py_simpl.
      destruct (write_residue (path_join OUTPUT_DIR (name m +:+ ".svg"))
                              (add_svg_header content));
        [done|by destruct (disk p)].
    + by py_simpl.
  - py_simpl. by destruct (disk p).
Qed.

(** The [try] with its handler: no exception leaves it, the target is
    counted on one side or the other, and the disk changes by what the
    write of the target, if any, puts there. *)
Lemma attempt_run m cnt failed p :
  exists pg t,
    try_except (try_target web fs_fault write_residue path_join OUTPUT_DIR m cnt failed)
               (except_target m cnt failed) p
    = (inr (match saved web fs_fault path_join OUTPUT_DIR m with
            | Some _ => (S cnt, failed)
            | None => (cnt, failed ++ [name m])
            end),
       {| page := pg;
          disk := {| dirs := dirs (disk p);
                     files := apply_writes
                                (option_list
                                   (written web fs_fault write_residue path_join OUTPUT_DIR m))
                                (files (disk p)) |} |},
       t)
    /\ visited t = [url m].
Proof.
  pose proof (extract_map_svg_visited m (page p)) as Hv.
  rewrite try_except_run, try_target_run. cbv zeta. unfold saved.
  destruct (extraction web m) as [e|[content|]] eqn:E.
  - eexists _, _. py_simpl. unfold except_target. py_simpl.
    split; [reflexivity|]. trace_simpl. by rewrite Hv.
  - destruct (fs_fault (output_path path_join OUTPUT_DIR m)) as [e|].
    + eexists _, _. py_simpl. unfold except_target. py_simpl.
      split; [reflexivity|]. trace_simpl. by rewrite Hv.
    + eexists _, _. py_simpl. split; [reflexivity|]. trace_simpl.
      by rewrite Hv.
  - eexists _, _. py_simpl. split; [reflexivity|].
    trace_simpl. by rewrite Hv.
Qed.

(** ** The loop over the targets *)

Lemma list_index_middle (m : MapInfo) done rest :
  is_Some (list_index m (done ++ m :: rest)).
Proof.
  induction done as [|x done IH]; simpl.
  - rewrite decide_True by done. eauto.
  - destruct (decide (x = m)); [eauto|].
    destruct IH as [i ->]. simpl. eauto.
Qed.

Lemma process_target_run done m rest cnt failed p :
  exists pg t,
    process_target web fs_fault write_residue path_join OUTPUT_DIR
                   (done ++ m :: rest) m cnt failed p
    = (inr (match saved web fs_fault path_join OUTPUT_DIR m with
            | Some _ => (S cnt, failed)
            | None => (cnt, failed ++ [name m])
            end),
       {| page := pg;
          disk := {| dirs := dirs (disk p);
                     files := apply_writes
                                (option_list (written web fs_fault write_residue path_join OUTPUT_DIR m))
                                (files (disk p)) |} |},
       t)
    /\ visited t = [url m].
Proof.
  destruct (list_index_middle m done rest) as [i Hi].
  destruct (attempt_run m cnt failed p) as (pg & t & Hrun & Hv).
  unfold process_target, maps_index. rewrite Hi.
  rewrite (bind_ok _ _ p i p []) by done. py_simpl.
  rewrite Hrun. py_simpl. eexists _, _. split; [reflexivity|].
  by trace_simpl.
Qed.

Lemma apply_writes_app ws1 ws2 fs :
  apply_writes (ws1 ++ ws2) fs = apply_writes ws2 (apply_writes ws1 fs).
Proof. apply foldl_app. Qed.

(** The whole loop: it never raises; the counter grows by the number of
    targets that end in a write, the failure list by the names of the
    others, in order; the disk changes by the writes, in order; every
    target is visited, in order. *)
Lemma main_loop_run todo : forall done cnt failed p,
  exists pg t,
    main_loop web fs_fault write_residue path_join OUTPUT_DIR done todo cnt failed p
    = (inr ((cnt + length (omap (saved web fs_fault path_join OUTPUT_DIR) todo))%nat,
            failed ++ omap (failure web fs_fault path_join OUTPUT_DIR) todo),
       {| page := pg;
          disk := {| dirs := dirs (disk p);
                     files := apply_writes
                                (omap (written web fs_fault write_residue path_join OUTPUT_DIR) todo)
                                (files (disk p)) |} |},
       t)
    /\ visited t = url <$> todo.
Proof.
  induction todo as [|m rest IH]; intros done cnt failed p.
  - exists (page p), []. cbn [main_loop omap]. py_simpl.
    rewrite Nat.add_0_r, app_nil_r. by destruct p as [pg [d f]].
  - cbn [main_loop].
    destruct (process_target_run done m rest cnt failed p)
      as (pg1 & t1 & Hrun1 & Hv1).
    rewrite (bind_ok _ _ _ _ _ _ Hrun1).
    match goal with
    | |- context [main_loop _ _ _ _ _ ?d rest ?c ?f ?q] =>
        destruct (IH d c f q) as (pg2 & t2 & Hrun2 & Hv2)
    end.
    rewrite Hrun2. py_simpl. exists pg2, (t1 ++ t2).
    split; [|by rewrite visited_app, Hv1, Hv2].
    cbn [omap list_omap disk dirs files]. unfold failure at 2.
    destruct (saved web fs_fault path_join OUTPUT_DIR m) as [w|];
      destruct (written web fs_fault write_residue path_join OUTPUT_DIR m) as [w'|];
      cbn [fst snd option_list length].
    + by rewrite Nat.add_succ_comm.
    + by rewrite Nat.add_succ_comm.
    + by rewrite <- app_assoc.
    + by rewrite <- app_assoc.
Qed.

(** ** [main] *)

Lemma with_new_page_run {A} (c : Py Process A) fs :
  with_new_page c fs
  = (result_of (c {| page := about_blank; disk := fs |}),
     disk (state_of (c {| page := about_blank; disk := fs |})),
     trace_of (c {| page := about_blank; disk := fs |})).
Proof.
  unfold with_new_page.
  by destruct (c {| page := about_blank; disk := fs |}) as [[r d] t].
Qed.

Lemma print_summary_printed {S} maps cnt failed (s : S) :
  printed (trace_of (print_summary OUTPUT_DIR maps cnt failed s))
  = [newline +:+ str_repeat "=" 60; "Extraction Complete!"; str_repeat "=" 60;
     count_line maps cnt]
      ++ match failed with
         | [] => []
         | _ :: _ => [failed_line failed]
         end
      ++ [newline +:+ "Maps saved to: " +:+ OUTPUT_DIR].
Proof.
  unfold print_summary. py_simpl. destruct failed as [|x failed].
  - rewrite (bind_ok _ _ s tt s []) by done. by py_simpl.
  - by py_simpl.
Qed.

Lemma print_summary_run {S} maps cnt failed (s : S) :
  result_of (print_summary OUTPUT_DIR maps cnt failed s) = inr tt
  /\ state_of (print_summary OUTPUT_DIR maps cnt failed s) = s
  /\ visited (trace_of (print_summary OUTPUT_DIR maps cnt failed s)) = [].
Proof.
  unfold print_summary. py_simpl. destruct failed as [|x failed].
  - rewrite (bind_ok _ _ s tt s []) by done. by py_simpl.
  - by py_simpl.
Qed.

(** When the output directory cannot be created, [main] stops there with
    the exception: no browser is started, no target is processed. *)
Lemma main_on_makedirs_fails maps fs e :
  OUTPUT_DIR ∉ dirs fs ->
  fs_fault OUTPUT_DIR = Some e ->
  main_on web fs_fault write_residue path_join OUTPUT_DIR maps fs
  = (inl e, fs,
     [Print (str_repeat "=" 60); Print "Tarkov Market Map SVG Extractor";
      Print (str_repeat "=" 60); Makedirs OUTPUT_DIR]).
Proof.
  intros Hd Hf. unfold main_on. py_simpl.
  rewrite (bind_err _ _ fs e fs [Makedirs OUTPUT_DIR]); [done|].
  unfold os_makedirs. rewrite decide_False by done. by rewrite Hf.
Qed.

(** Otherwise [main] returns normally, whatever happens to the targets:
    the disk has the output directory and the writes of the targets, every
    target was visited, and the trace ends with the summary of the
    counter and the failure list of the loop. *)
Lemma main_on_run maps fs :
  OUTPUT_DIR ∈ dirs fs \/ fs_fault OUTPUT_DIR = None ->
  exists t0,
    let cnt := length (omap (saved web fs_fault path_join OUTPUT_DIR) maps) in
    let failed := omap (failure web fs_fault path_join OUTPUT_DIR) maps in
    let fs' :=
      {| dirs := dirs (with_output_dir OUTPUT_DIR fs);
         files := apply_writes (omap (written web fs_fault write_residue path_join OUTPUT_DIR) maps)
                               (files fs) |} in
    main_on web fs_fault write_residue path_join OUTPUT_DIR maps fs
    = (inr tt, fs', t0 ++ trace_of (print_summary OUTPUT_DIR maps cnt failed fs'))
    /\ visited t0 = url <$> maps.
Proof.
  intros Hok. cbv zeta. unfold main_on. py_simpl.
  assert (os_makedirs fs_fault OUTPUT_DIR fs
          = (inr tt, with_output_dir OUTPUT_DIR fs, [Makedirs OUTPUT_DIR])) as Hmk.
  { unfold os_makedirs, with_output_dir.
    destruct (decide (OUTPUT_DIR ∈ dirs fs)); [done|].
    destruct Hok as [Hok|Hok]; [done|]. by rewrite Hok. }
  rewrite (bind_ok _ _ _ _ _ _ Hmk). py_simpl.
  destruct (main_loop_run maps [] 0%nat []
              {| page := about_blank; disk := with_output_dir OUTPUT_DIR fs |})
    as (pg & t & Hrun & Hv).
  cbn [disk] in Hrun.
  erewrite (bind_ok (with_new_page _)).
  2:{ rewrite with_new_page_run. py_simpl.
      rewrite (bind_ok _ _ _ _ _ _ Hrun). py_simpl. cbn [disk]. reflexivity. }
  cbn [fst snd]. rewrite Nat.add_0_l, app_nil_l.
  assert (files (with_output_dir OUTPUT_DIR fs) = files fs) as ->.
  { unfold with_output_dir. by destruct (decide (OUTPUT_DIR ∈ dirs fs)). }
  match goal with
  | |- context [print_summary _ _ ?c ?f ?s] =>
      destruct (print_summary_run maps c f s) as (-> & -> & _)
  end.
  py_simpl.
  exists ([Print (str_repeat "=" 60); Print "Tarkov Market Map SVG Extractor";
           Print (str_repeat "=" 60); Makedirs OUTPUT_DIR;
           Print ("Output directory: " +:+ OUTPUT_DIR +:+ newline);
           Print "Starting browser..."; BrowserLaunch; NewContext; NewPage]
            ++ t ++ [BrowserClose]).
  split; [reflexivity|].
  trace_simpl. by rewrite Hv, app_nil_r.
Qed.

(** ** Writes *)

Lemma lookup_apply_writes ws : forall (fs : gmap string string) path,
  apply_writes ws fs !! path
  = match last_write ws path with
    | Some content => Some content
    | None => fs !! path
    end.
Proof.
  induction ws as [|w ws IH]; intros fs path; [done|].
  cbn [apply_writes foldl last_write]. fold (apply_writes ws (<[w.1:=w.2]> fs)).
  rewrite IH. destruct (last_write ws path); [done|].
  rewrite lookup_insert. by destruct (decide (w.1 = path)).
Qed.

(** Doing the same writes again leaves the files as they are. *)
Lemma apply_writes_idemp ws (fs : gmap string string) :
  apply_writes ws (apply_writes ws fs) = apply_writes ws fs.
Proof.
  apply map_eq. intros path. rewrite !lookup_apply_writes.
  by destruct (last_write ws path).
Qed.

(** ** Counting *)

Lemma outcomes_length maps :
  (length (omap (saved web fs_fault path_join OUTPUT_DIR) maps)
   + length (omap (failure web fs_fault path_join OUTPUT_DIR) maps))%nat
  = length maps.
Proof.
  induction maps as [|m maps IH]; [done|].
  cbn [omap list_omap]. unfold failure at 1.
  destruct (saved web fs_fault path_join OUTPUT_DIR m); simpl in *; lia.
Qed.

Lemma failures_sublist maps :
  omap (failure web fs_fault path_join OUTPUT_DIR) maps `sublist_of` (name <$> maps).
Proof.
  induction maps as [|m maps IH]; [done|].
  cbn [omap list_omap]. unfold failure at 1. rewrite fmap_cons.
  destruct (saved web fs_fault path_join OUTPUT_DIR m).
  - by apply sublist_cons.
  - by apply sublist_skip.
Qed.

End Run.

(* ===================================================================== *)
(** * Properties of the extraction *)
(* ===================================================================== *)

Lemma find_above_split l content :
  find above_threshold l = Some content ->
  exists before after,
    l = before ++ content :: after
    /\ Forall (fun c => len c <= 10000) before
    /\ 10000 < len content.
Proof.
  induction l as [|x l IH]; [done|]. cbn [find].
  destruct (above_threshold x) eqn:E.
  - intros [= <-]. exists [], l. repeat split; [done|].
    by apply Z.ltb_lt in E.
  - intros H. destruct (IH H) as (before & after & -> & Hb & Hc).
    exists (x :: before), after. repeat split; [|done].
    constructor; [|done]. by apply Z.ltb_ge in E.
Qed.

(** C3. Selector probing examines, for each selector in list order, the
    serializations of the matching elements in document order, and its
    result is the first of them, across the whole selector list, whose
    length is strictly above 10,000.  When [content] is accepted under
    [selector], every serialization seen under the selectors before it, and
    every one seen before it under [selector], is at most 10,000 characters
    long, and the selectors queried are those up to [selector]: none after
    it.  When nothing is accepted, every selector has been queried. *)
Theorem probing_accepts_first_above_threshold
    (doc : Document) (selectors : list string) :
  let run := probe_selectors selectors doc in
  result_of run
  = inr (find above_threshold (concat (examined doc <$> selectors)))
  /\ (forall content,
        result_of run = inr (Some content) ->
        exists pre selector post before after,
          selectors = pre ++ selector :: post
          /\ Forall (nothing_accepted doc) pre
          /\ examined doc selector = before ++ content :: after
          /\ Forall (fun c => len c <= 10000) before
          /\ 10000 < len content
          /\ queried (trace_of run) = pre ++ [selector])
  /\ (result_of run = inr None -> queried (trace_of run) = selectors).
Proof.
  cbv zeta.
  destruct (probe_selectors_spec selectors doc) as (Hr & _ & _).
  destruct (probe_selectors_queried selectors doc) as (_ & Hsome & Hnone).
  split; [done|]. split; [|done].
  intros content Hc.
  destruct (Hsome content Hc) as (pre & selector & post & -> & Hq & Hpre & Hf).
  destruct (find_above_split _ _ Hf) as (before & after & He & Hb & Hlen).
  by exists pre, selector, post, before, after.
Qed.

(** C6. An exception raised while querying a selector or serializing one
    of its elements does not leave the probing loop: the loop goes on with
    the next selector, from the same page, and the probing as a whole never
    raises. *)
Theorem selector_error_is_not_fatal
    (doc : Document) (selector : string) (rest : list string) (e : exn) :
  result_of (probe_selector selector doc) = inl e ->
  probe_selectors (selector :: rest) doc
  = (result_of (probe_selectors rest doc), doc,
     trace_of (probe_selector selector doc)
       ++ trace_of (probe_selectors rest doc))
  /\ exists svg_content,
       result_of (probe_selectors (selector :: rest) doc) = inr svg_content.
Proof.
  intros He.
  destruct (probe_selector_spec selector doc) as (_ & _ & _ & Hr).
  rewrite He in Hr. simpl in Hr.
  destruct (probe_selectors_spec rest doc) as (_ & Hs & _).
  destruct (probe_selectors_spec (selector :: rest) doc) as (Hres & _ & _).
  split; [|eauto].
  by rewrite probe_selectors_cons, <- Hr, Hs.
Qed.

(** C10. The page script of the fallback returns [html] exactly when
    [html] is not empty, every element before it in document order is
    strictly shorter and no element after it is longer: among elements of
    the same, maximal, length the first in document order is returned.  A
    candidate that is not strictly longer than the current maximum leaves
    the loop state as it is. *)
Theorem fallback_ties_first_in_document_order (svgs : list string) (html : string) :
  (largest_svg svgs = Some html <->
   exists pre post,
     svgs = pre ++ html :: post
     /\ 0 < len html
     /\ Forall (fun x => len x < len html) pre
     /\ Forall (fun x => len x <= len html) post)
  /\ (forall best m, len html <= m -> largest_step (best, m) html = (best, m)).
Proof.
  split.
  - split; [apply largest_svg_some|].
    intros (pre & post & -> & Hh & Hpre & Hpost).
    by apply largest_svg_first_max.
  - intros best m H. rewrite largest_step_run.
    destruct (m <? len html) eqn:E; [|done]. apply Z.ltb_lt in E. lia.
Qed.

Section Extraction.

Variable web : string -> exn + Document.

Lemma extract_map_svg_queried m doc0 :
  queried (trace_of (extract_map_svg web m doc0))
  = match web (url m) with
    | inl _ => []
    | inr doc => queried (trace_of (probe_selectors svg_selectors doc))
    end.
Proof.
  destruct (web (url m)) as [e|doc] eqn:E.
  - by rewrite (extract_map_svg_goto_fails web m _ e E).
  - rewrite (extract_map_svg_loaded web m _ doc E).
    destruct (find above_threshold (concat (examined doc <$> svg_selectors)));
      py_simpl; trace_simpl; by rewrite ?app_nil_r.
Qed.

(** C7. The selectors are the seven patterns of the list, in this order,
    and an extraction queries them in this order: what it queries is a
    prefix of the list, and the whole list when probing accepts
    nothing. *)
Theorem selectors_are_tried_in_fixed_order (m : MapInfo) (doc0 doc : Document) :
  svg_selectors
  = ["svg.svg-map"; ".map-container svg"; ".map-wrapper svg"; "svg[viewBox]";
     "#map svg"; ".leaflet-container svg"; "svg"]
  /\ length svg_selectors = 7%nat
  /\ queried (trace_of (extract_map_svg web m doc0)) `prefix_of` svg_selectors
  /\ (web (url m) = inr doc ->
      Forall (nothing_accepted doc) svg_selectors ->
      queried (trace_of (extract_map_svg web m doc0))
      = ["svg.svg-map"; ".map-container svg"; ".map-wrapper svg";
         "svg[viewBox]"; "#map svg"; ".leaflet-container svg"; "svg"]).
Proof.
  split; [done|]. split; [done|]. rewrite extract_map_svg_queried. split.
  - destruct (web (url m)) as [e|d]; [apply prefix_nil|].
    apply probe_selectors_queried.
  - intros -> Hall.
    destruct (probe_selectors_spec svg_selectors doc) as (Hr & _ & _).
    destruct (probe_selectors_queried svg_selectors doc) as (_ & _ & Hnone).
    apply Hnone. rewrite Hr. f_equal.
    apply find_none_below, Forall_concat, Forall_fmap.
    exact Hall.
Qed.

(** C4. On a loaded page on which probing accepts nothing (under every
    selector the serializations seen, if any, are at most 10,000
    characters long), and whose script evaluation does not fail, the
    extraction runs the fallback and returns its result: an element of the
    document of maximal serialized length, whatever that length is.  As
    the serialization of an element is never empty, the result is absent
    exactly when the document has no [svg] element. *)
Theorem fallback_returns_largest (m : MapInfo) (doc0 doc : Document) :
  web (url m) = inr doc ->
  Forall (nothing_accepted doc) svg_selectors ->
  evaluate_fault doc = None ->
  Forall (fun html => html <> EmptyString) (document_svgs doc) ->
  let run := extract_map_svg web m doc0 in
  result_of run = inr (largest_svg (document_svgs doc))
  /\ PageEvaluate ∈ trace_of run
  /\ (forall html,
        result_of run = inr (Some html) ->
        html ∈ document_svgs doc
        /\ Forall (fun x => len x <= len html) (document_svgs doc))
  /\ (result_of run = inr None <-> document_svgs doc = []).
Proof.
  intros Hweb Hall Hev Hne. cbv zeta.
  rewrite (extract_map_svg_loaded web m _ doc Hweb).
  assert (find above_threshold (concat (examined doc <$> svg_selectors)) = None)
    as ->.
  { apply find_none_below, Forall_concat, Forall_fmap. exact Hall. }
  rewrite Hev. py_simpl. split; [done|]. split; [|split].
  - rewrite !elem_of_app. right. right. set_solver.
  - intros html [= H].
    apply largest_svg_some in H as (pre & post & Heq & Hh & Hpre & Hpost).
    rewrite Heq. split; [set_solver|].
    apply Forall_app. split.
    + eapply Forall_impl; [exact Hpre|]. simpl. intros; lia.
    + constructor; [lia|done].
  - split.
    + intros [= H]. apply largest_svg_none in H.
      destruct (document_svgs doc) as [|x l]; [done|].
      inversion H; subst. by inversion Hne.
    + by intros ->.
Qed.

End Extraction.

(* ===================================================================== *)
(** * Properties of the run *)
(* ===================================================================== *)

Lemma add_svg_header_starts raw : startswith (add_svg_header raw) "<?xml" = true.
Proof.
  unfold add_svg_header. by destruct (startswith raw "<?xml") eqn:E.
Qed.

Lemma xml_declarations_header raw :
  xml_declarations (XML_HEADER +:+ raw) = S (xml_declarations raw).
Proof. reflexivity. Qed.

Section Summary.

Variable web : string -> exn + Document.
Variable fs_fault : string -> option exn.
Variable write_residue : string -> string -> option string.
Variable path_join : string -> string -> string.
Variable OUTPUT_DIR : string.

Abbreviation saved' := (saved web fs_fault path_join OUTPUT_DIR).
Abbreviation written' := (written web fs_fault write_residue path_join OUTPUT_DIR).
Abbreviation failure' := (failure web fs_fault path_join OUTPUT_DIR).
Abbreviation main_on' := (main_on web fs_fault write_residue path_join OUTPUT_DIR).
Abbreviation main_loop' := (main_loop web fs_fault write_residue path_join OUTPUT_DIR).
Abbreviation process_target' := (process_target web fs_fault write_residue path_join OUTPUT_DIR).
Abbreviation output_path' := (output_path path_join OUTPUT_DIR).

Lemma saved_all (l : list MapInfo) :
  (forall m, m ∈ l -> is_Some (saved' m)) ->
  length (omap saved' l) = length l /\ omap failure' l = [].
Proof.
  induction l as [|m l IH]; intros H; [done|].
  destruct (H m) as [w Hw]; [apply elem_of_cons; by left|].
  destruct IH as [IH1 IH2]; [intros x Hx; apply H, elem_of_cons; by right|].
  cbn [omap list_omap]. unfold failure at 1. rewrite Hw. simpl.
  split; [by f_equal | done].
Qed.

Lemma output_dir_made fs :
  OUTPUT_DIR ∈ dirs (with_output_dir OUTPUT_DIR fs).
Proof.
  unfold with_output_dir. destruct (decide (OUTPUT_DIR ∈ dirs fs)); [done|].
  cbn [dirs]. set_solver.
Qed.

Lemma with_output_dir_id fs :
  OUTPUT_DIR ∈ dirs fs -> with_output_dir OUTPUT_DIR fs = fs.
Proof. intros H. unfold with_output_dir. by rewrite decide_True. Qed.

(** A target whose markup was extracted and whose file cannot be written:
    the [OSError] is caught by the handler of the target. *)
Lemma process_target_write_fails done m rest cnt failed p content e :
  extraction web m = inr (Some content) ->
  fs_fault (output_path' m) = Some e ->
  exists st t0,
    process_target' (done ++ m :: rest) m cnt failed p
    = (inr (cnt, failed ++ [name m]), st,
       t0 ++ [OpenWrite (output_path' m);
              Print ("  [ERROR] Error extracting " +:+ name m +:+ ": "
                       +:+ exn_str e)]).
Proof.
  intros Hx Hf.
  destruct (list_index_middle m done rest) as [i Hi].
  unfold process_target, maps_index. rewrite Hi.
  rewrite (bind_ok _ _ p i p []) by done. py_simpl.
  rewrite try_except_run, try_target_run. cbv zeta. rewrite Hx, Hf.
  py_simpl. unfold except_target. py_simpl.
  eexists _, (_ :: _). rewrite <- app_assoc. reflexivity.
Qed.

Lemma saved_succeeds m :
  target_succeeds web fs_fault path_join OUTPUT_DIR m
  = bool_decide (is_Some (saved' m)).
Proof.
  unfold target_succeeds, saved.
  destruct (extraction web m) as [e|[content|]]; try done.
  by destruct (fs_fault (output_path' m)).
Qed.

(** The targets counted are those that succeed, the targets named those
    that fail. *)
Lemma outcomes_by_success maps :
  length (omap saved' maps)
  = length (filter (fun m => target_succeeds web fs_fault path_join OUTPUT_DIR m = true)
                   maps)
  /\ omap failure' maps
     = name <$> filter (fun m => target_succeeds web fs_fault path_join OUTPUT_DIR m
                                 = false) maps.
Proof.
  induction maps as [|m maps [IH1 IH2]]; [done|].
  cbn [omap list_omap]. unfold failure at 1.
  fold (omap saved' maps) (omap failure' maps).
  pose proof (saved_succeeds m) as Hs.
  destruct (saved' m) as [w|].
  - rewrite bool_decide_eq_true_2 in Hs by eauto.
    rewrite filter_cons_True by done.
    rewrite (filter_cons_False (fun m => _ = false)) by (by rewrite Hs).
    cbn [length]. by rewrite IH1, IH2.
  - rewrite bool_decide_eq_false_2 in Hs by (by intros [x Hx]).
    rewrite filter_cons_False by (by rewrite Hs).
    rewrite (filter_cons_True (fun m => _ = false)) by done.
    rewrite fmap_cons. by rewrite IH1, IH2.
Qed.

(** C9. The loop over the targets never raises, and when it ends the
    counter plus the number of names in the failure list is the number of
    targets.  The counter is the number of targets that succeeded (markup
    extracted and file written), and the failure list is made of the names
    of the targets that failed, each once, in the order of the target list:
    it is a sublist of the names of the targets. *)
Theorem every_target_counted_once (maps : list MapInfo) (p : Process) :
  exists extracted_count failed_maps,
    result_of (main_loop' [] maps 0%nat [] p) = inr (extracted_count, failed_maps)
    /\ (extracted_count + length failed_maps)%nat = length maps
    /\ failed_maps `sublist_of` (name <$> maps)
    /\ extracted_count
       = length (filter (fun m => target_succeeds web fs_fault path_join OUTPUT_DIR m
                                  = true) maps)
    /\ failed_maps
       = name <$> filter (fun m => target_succeeds web fs_fault path_join OUTPUT_DIR m
                                   = false) maps.
Proof.
  destruct (main_loop_run web fs_fault write_residue path_join OUTPUT_DIR
              maps [] 0%nat [] p) as (pg & t & Hrun & _).
  destruct (outcomes_by_success maps) as [Hc Hf].
  rewrite Hrun. eexists _, _. split; [reflexivity|]. split; [|split; [|split]].
  - apply outcomes_length.
  - apply failures_sublist.
  - by rewrite Nat.add_0_l.
  - by rewrite app_nil_l.
Qed.

(** C5. In a run over [pre ++ k :: post] in which the extraction of [k]
    gives nothing or raises, while every other target is extracted and its
    file written, the run goes through all the targets, in order, and
    ends normally; its summary counts one less than the number of targets
    and names [k], and nothing else, as failed. *)
Theorem one_failure_is_isolated
    (pre post : list MapInfo) (k : MapInfo) (fs : FileSystem) :
  (OUTPUT_DIR ∈ dirs fs \/ fs_fault OUTPUT_DIR = None) ->
  (extraction web k = inr None \/ exists e, extraction web k = inl e) ->
  (forall m, m ∈ pre ++ post -> exists content, extraction web m = inr (Some content)) ->
  (forall m, m ∈ pre ++ post -> fs_fault (output_path' m) = None) ->
  let maps := pre ++ k :: post in
  let run := main_on' maps fs in
  result_of (main_loop' [] maps 0%nat [] {| page := about_blank; disk := fs |})
  = inr ((length maps - 1)%nat, [name k])
  /\ result_of run = inr tt
  /\ visited (trace_of run) = url <$> maps
  /\ exists lines,
       printed (trace_of run)
       = lines ++ [count_line maps (length maps - 1)%nat; failed_line [name k];
                   newline +:+ "Maps saved to: " +:+ OUTPUT_DIR].
Proof.
  intros Hdir Hk Hx Hw. cbv zeta.
  assert (saved' k = None) as Hsk.
  { unfold saved. by destruct Hk as [->|[e ->]]. }
  assert (forall m, m ∈ pre ++ post -> is_Some (saved' m)) as Hs.
  { intros m Hm. destruct (Hx m Hm) as [c Hc]. unfold saved.
    rewrite Hc, (Hw m Hm). eauto. }
  destruct (saved_all pre) as [Hl1 Hf1];
    [intros; apply Hs, elem_of_app; by left|].
  destruct (saved_all post) as [Hl2 Hf2];
    [intros; apply Hs, elem_of_app; by right|].
  assert (length (omap saved' (pre ++ k :: post))
          = (length (pre ++ k :: post) - 1)%nat) as Hcnt.
  { rewrite omap_app, !length_app. cbn [omap list_omap]. rewrite Hsk, Hl1.
    cbn [length]. fold (omap saved' post). rewrite Hl2. lia. }
  assert (omap failure' (pre ++ k :: post) = [name k]) as Hfail.
  { rewrite omap_app, Hf1. cbn [omap list_omap]. unfold failure at 1.
    rewrite Hsk. fold (omap failure' post). by rewrite Hf2. }
  split.
  - destruct (main_loop_run web fs_fault write_residue path_join OUTPUT_DIR
                (pre ++ k :: post) [] 0%nat []
                {| page := about_blank; disk := fs |}) as (pg & t & Hrun & _).
    by rewrite Hrun, Hcnt, Hfail.
  - destruct (main_on_run web fs_fault write_residue path_join OUTPUT_DIR (pre ++ k :: post) fs Hdir)
      as (t0 & Hrun & Hv).
    cbv zeta in Hrun. rewrite Hrun, Hcnt, Hfail. py_simpl.
    match goal with
    | |- context [print_summary _ _ ?c ?f ?s] =>
        pose proof (print_summary_printed OUTPUT_DIR (pre ++ k :: post) c f s) as Hp;
        destruct (print_summary_run OUTPUT_DIR (pre ++ k :: post) c f s)
          as (_ & _ & Hvs)
    end.
    split; [done|]. split.
    + by rewrite visited_app, Hv, Hvs, app_nil_r.
    + rewrite printed_app, Hp.
      exists (printed t0 ++ [newline +:+ str_repeat "=" 60;
                             "Extraction Complete!"; str_repeat "=" 60]).
      by rewrite <- app_assoc.
Qed.

(** C8. A second run on the disk the first run left, against the same
    site, leaves that disk as it is: the same directories, the same files
    with the same contents.  A write puts the new content under the path,
    whatever was there before. *)
Theorem second_run_leaves_files_unchanged (maps : list MapInfo) (fs : FileSystem) :
  let fs1 := state_of (main_on' maps fs) in
  state_of (main_on' maps fs1) = fs1
  /\ (forall path content disk0,
        fs_fault path = None ->
        files (state_of (write_file fs_fault write_residue path content disk0)) !! path
        = Some content).
Proof.
  cbv zeta. split.
  - assert ((OUTPUT_DIR ∈ dirs fs \/ fs_fault OUTPUT_DIR = None)
            \/ ((OUTPUT_DIR ∉ dirs fs) /\ exists e, fs_fault OUTPUT_DIR = Some e))
      as [Hok|(Hout & e & Hf)].
    { destruct (decide (OUTPUT_DIR ∈ dirs fs)); [by left; left|].
      destruct (fs_fault OUTPUT_DIR) as [e|]; [right; eauto|by left; right]. }
    + destruct (main_on_run web fs_fault write_residue path_join OUTPUT_DIR maps fs Hok)
        as (t0 & Hrun & _).
      cbv zeta in Hrun. rewrite Hrun. py_simpl.
      match goal with
      | |- context [main_on _ _ _ _ _ _ ?f1] =>
          destruct (main_on_run web fs_fault write_residue path_join OUTPUT_DIR maps f1)
            as (t1 & Hrun1 & _); [left; apply output_dir_made|]
      end.
      cbv zeta in Hrun1. rewrite Hrun1. py_simpl.
      rewrite with_output_dir_id by (cbn [dirs]; apply output_dir_made).
      cbn [dirs files]. by rewrite apply_writes_idemp.
    + rewrite (main_on_makedirs_fails web fs_fault write_residue path_join OUTPUT_DIR maps fs e Hout Hf).
      py_simpl.
      by rewrite (main_on_makedirs_fails web fs_fault write_residue path_join OUTPUT_DIR maps fs e Hout Hf).
  - intros path content disk0 Hf. unfold write_file. rewrite Hf. py_simpl.
    cbn [files]. apply lookup_insert_eq.
Qed.

(** C1, as the code has it.  A failure to create the output directory
    leaves [main] as an exception, before any target is looked at.  A
    failure to write the file of a target does not: the handler of the
    target catches it and the name of the target goes to the failure list;
    and the run, once past the directory creation, goes through all the
    targets and ends normally. *)
Theorem write_failure_is_recorded_for_the_target :
  (forall maps fs e,
      OUTPUT_DIR ∉ dirs fs ->
      fs_fault OUTPUT_DIR = Some e ->
      result_of (main_on' maps fs) = inl e
      /\ visited (trace_of (main_on' maps fs)) = [])
  /\ (forall done m rest extracted_count failed_maps p content e,
        extraction web m = inr (Some content) ->
        fs_fault (output_path' m) = Some e ->
        let run := process_target' (done ++ m :: rest) m
                                   extracted_count failed_maps p in
        result_of run = inr (extracted_count, failed_maps ++ [name m])
        /\ Print ("  [ERROR] Error extracting " +:+ name m +:+ ": "
                    +:+ exn_str e) ∈ trace_of run)
  /\ (forall maps fs,
        OUTPUT_DIR ∈ dirs fs \/ fs_fault OUTPUT_DIR = None ->
        result_of (main_on' maps fs) = inr tt
        /\ visited (trace_of (main_on' maps fs)) = url <$> maps).
Proof.
  split; [|split].
  - intros maps fs e Hout Hf.
    by rewrite (main_on_makedirs_fails web fs_fault write_residue path_join
                  OUTPUT_DIR maps fs e Hout Hf).
  - intros done m rest cnt failed p content e Hx Hf. cbv zeta.
    destruct (process_target_write_fails done m rest cnt failed p content e Hx Hf)
      as (st & t0 & ->).
    py_simpl. split; [done|].
    rewrite !elem_of_app, !elem_of_cons. right. by right; left.
  - intros maps fs Hok.
    destruct (main_on_run web fs_fault write_residue path_join OUTPUT_DIR maps fs Hok)
      as (t0 & Hrun & Hv).
    cbv zeta in Hrun. rewrite Hrun. py_simpl. split; [done|].
    match goal with
    | |- context [print_summary _ _ ?c ?f ?s] =>
        destruct (print_summary_run OUTPUT_DIR maps c f s) as (_ & _ & Hvs)
    end.
    by rewrite visited_app, Hv, Hvs, app_nil_r.
Qed.

(** C2, as the code has it.  When the markup of a target was extracted
    and its file is written, the content of the file is the markup after
    the header step, and it starts with ['<?xml'].  Markup that does not
    start with ['<?xml'] is written after the standard declaration line,
    which adds one declaration to those it contains; markup that starts
    with ['<?xml'] is written as it is, with the declarations it has. *)
Theorem written_content_starts_with_declaration
    (done rest : list MapInfo) (m : MapInfo)
    (extracted_count : nat) (failed_maps : list string)
    (p : Process) (raw : string) :
  extraction web m = inr (Some raw) ->
  fs_fault (output_path' m) = None ->
  let run := process_target' (done ++ m :: rest) m
                             extracted_count failed_maps p in
  files (disk (state_of run)) !! output_path' m = Some (add_svg_header raw)
  /\ startswith (add_svg_header raw) "<?xml" = true
  /\ (startswith raw "<?xml" = false ->
      add_svg_header raw = XML_HEADER +:+ raw
      /\ xml_declarations (add_svg_header raw) = S (xml_declarations raw))
  /\ (startswith raw "<?xml" = true -> add_svg_header raw = raw).
Proof.
  intros Hx Hf. cbv zeta.
  destruct (process_target_run web fs_fault write_residue path_join OUTPUT_DIR
              done m rest extracted_count failed_maps p)
    as (pg & t & -> & _).
  py_simpl. cbn [disk files]. unfold written. rewrite Hx, Hf.
  cbn [option_list apply_writes foldl fst snd].
  split; [apply lookup_insert_eq|].
  split; [apply add_svg_header_starts|].
  unfold add_svg_header. split; intros ->; cbn [negb]; [|done].
  split; [done|]. apply xml_declarations_header.
Qed.

End Summary.

(* ===================================================================== *)
(** * The events of a run *)
(* ===================================================================== *)

Lemma opened_app t1 t2 : opened (t1 ++ t2) = opened t1 ++ opened t2.
Proof. apply omap_app. Qed.

Lemma browser_events_app t1 t2 :
  browser_events (t1 ++ t2) = browser_events t1 ++ browser_events t2.
Proof. apply omap_app. Qed.

Lemma serializations_app t1 t2 :
  serializations (t1 ++ t2) = (serializations t1 + serializations t2)%nat.
Proof. unfold serializations. by rewrite omap_app, length_app. Qed.

Lemma script_runs_app t1 t2 :
  script_runs (t1 ++ t2) = (script_runs t1 + script_runs t2)%nat.
Proof. unfold script_runs. by rewrite omap_app, length_app. Qed.

Lemma opened_prints lines : opened (Print <$> lines) = [].
Proof. by induction lines. Qed.

Lemma visited_prints lines : visited (Print <$> lines) = [].
Proof. by induction lines. Qed.

Lemma browser_events_prints lines : browser_events (Print <$> lines) = [].
Proof. by induction lines. Qed.

Lemma printed_prints lines : printed (Print <$> lines) = lines.
Proof. induction lines as [|l lines IH]; [done|]. simpl. by f_equal. Qed.

(** A trace of probing events has no navigation, no page script, no write
    and no call on the browser. *)
Lemma probe_events_observed t :
  Forall (fun e => is_probe_event e = true) t ->
  visited t = [] /\ opened t = [] /\ browser_events t = [] /\ script_runs t = 0%nat.
Proof.
  induction 1 as [|e t He _ (IH1 & IH2 & IH3 & IH4)]; [done|].
  destruct e; try discriminate He; done.
Qed.

Lemma probe_elements_events selector els doc :
  Forall (fun e => is_probe_event e = true)
         (trace_of (probe_elements selector els doc)).
Proof.
  induction els as [|el rest IH]; [constructor|].
  rewrite probe_elements_cons.
  destruct (outerHTML el) as [e|content]; [by repeat constructor|].
  destruct (above_threshold content); [by repeat constructor|].
  py_simpl. by constructor.
Qed.

Lemma probe_selector_events selector doc :
  Forall (fun e => is_probe_event e = true)
         (trace_of (probe_selector selector doc)).
Proof.
  unfold probe_selector. rewrite bind_run. unfold page_query_selector_all.
  py_simpl. destruct (query_selector_all doc selector) as [e|els].
  - py_simpl. by repeat constructor.
  - py_simpl. constructor; [done|]. apply probe_elements_events.
Qed.

Lemma probe_selectors_events selectors doc :
  Forall (fun e => is_probe_event e = true)
         (trace_of (probe_selectors selectors doc)).
Proof.
  induction selectors as [|selector rest IH]; [constructor|].
  rewrite probe_selectors_cons.
  destruct (find above_threshold (examined doc selector)); py_simpl.
  - apply probe_selector_events.
  - apply Forall_app. split; [apply probe_selector_events|done].
Qed.

Section Traces.

Variable web : string -> exn + Document.
Variable fs_fault : string -> option exn.
Variable write_residue : string -> string -> option string.
Variable path_join : string -> string -> string.
Variable OUTPUT_DIR : string.

Abbreviation saved'' := (saved web fs_fault path_join OUTPUT_DIR).
Abbreviation written'' := (written web fs_fault write_residue path_join OUTPUT_DIR).
Abbreviation failure'' := (failure web fs_fault path_join OUTPUT_DIR).
Abbreviation outcome_events'' := (outcome_events web fs_fault path_join OUTPUT_DIR).
Abbreviation target_trace'' := (target_trace web fs_fault path_join OUTPUT_DIR).
Abbreviation loop_trace'' := (loop_trace web fs_fault path_join OUTPUT_DIR).
Abbreviation output_path'' := (output_path path_join OUTPUT_DIR).

(** The events of an extraction do not depend on what the page showed
    before. *)
Lemma extract_map_svg_trace m doc0 :
  trace_of (extract_map_svg web m doc0)
  = trace_of (extract_map_svg web m about_blank).
Proof.
  destruct (web (url m)) as [e|doc] eqn:E.
  - by rewrite !(extract_map_svg_goto_fails web m _ e E).
  - rewrite !(extract_map_svg_loaded web m _ doc E).
    by destruct (find above_threshold (concat (examined doc <$> svg_selectors))).
Qed.

(** The [try] of one target with its handler, in full. *)
Lemma attempt_full m cnt failed p :
  try_except (try_target web fs_fault write_residue path_join OUTPUT_DIR m cnt failed)
             (except_target m cnt failed) p
  = (inr (match saved'' m with
          | Some _ => (S cnt, failed)
          | None => (cnt, failed ++ [name m])
          end),
     {| page := state_of (extract_map_svg web m (page p));
        disk := {| dirs := dirs (disk p);
                   files := apply_writes (option_list (written'' m))
                                         (files (disk p)) |} |},
     trace_of (extract_map_svg web m about_blank) ++ outcome_events'' m).
Proof.
  rewrite try_except_run, try_target_run. cbv zeta.
  unfold saved, outcome_events. rewrite (extract_map_svg_trace m (page p)).
  destruct (extraction web m) as [e|[content|]] eqn:E.
  - py_simpl. unfold except_target. py_simpl. by rewrite app_nil_r.
  - destruct (fs_fault (output_path'' m)) as [e|].
    + py_simpl. unfold except_target. py_simpl. by rewrite <- app_assoc.
    + by py_simpl.
  - by py_simpl.
Qed.

Lemma list_index_first (m : MapInfo) done rest :
  exists i,
    list_index m (done ++ m :: rest) = Some i
    /\ (i <= length done)%nat
    /\ (m ∉ done -> i = length done)
    /\ (m ∈ done -> (i < length done)%nat).
Proof.
  induction done as [|x done IH]; simpl.
  - exists 0%nat. rewrite decide_True by done.
    repeat split; try done. intros H. by apply elem_of_nil in H.
  - destruct (decide (x = m)) as [->|Hne].
    + exists 0%nat. repeat split; try lia.
      intros H. exfalso. apply H. by left.
    + destruct IH as (i & -> & Hle & Hnotin & Hin). exists (S i).
      repeat split; simpl; try lia.
      * intros H. f_equal. apply Hnotin. intros H'. apply H. by right.
      * intros H. apply elem_of_cons in H as [H|H]; [congruence|].
        specialize (Hin H). lia.
Qed.

(** One iteration of the loop, in full. *)
Lemma process_target_full done m rest cnt failed p :
  process_target web fs_fault write_residue path_join OUTPUT_DIR
                 (done ++ m :: rest) m cnt failed p
  = (inr (match saved'' m with
          | Some _ => (S cnt, failed)
          | None => (cnt, failed ++ [name m])
          end),
     {| page := state_of (extract_map_svg web m (page p));
        disk := {| dirs := dirs (disk p);
                   files := apply_writes (option_list (written'' m))
                                         (files (disk p)) |} |},
     target_trace'' (done ++ m :: rest) m).
Proof.
  destruct (list_index_first m done rest) as (i & Hi & _).
  unfold process_target, maps_index, target_trace, progress_line. rewrite Hi.
  rewrite (bind_ok _ _ p i p []) by done. py_simpl.
  by rewrite attempt_full.
Qed.

(** The events of the loop are those of its targets, one after the
    other. *)
Lemma main_loop_trace todo : forall done cnt failed p,
  trace_of (main_loop web fs_fault write_residue path_join OUTPUT_DIR done todo cnt failed p)
  = loop_trace'' (done ++ todo) todo.
Proof.
  induction todo as [|m rest IH]; intros seen cnt failed p; [reflexivity|].
  cbn [main_loop].
  rewrite (bind_ok _ _ _ _ _ _ (process_target_full seen m rest cnt failed p)).
  py_simpl. rewrite IH. unfold loop_trace. rewrite fmap_cons. cbn [concat].
  by rewrite <- (app_assoc seen [m] rest).
Qed.

Lemma print_summary_trace {S} maps cnt failed (s : S) :
  trace_of (print_summary OUTPUT_DIR maps cnt failed s)
  = Print <$> summary_lines OUTPUT_DIR maps cnt failed.
Proof.
  unfold print_summary, summary_lines. py_simpl. destruct failed as [|x failed].
  - rewrite (bind_ok _ _ s tt s []) by done. by py_simpl.
  - by py_simpl.
Qed.

(** A run that gets past the creation of the output directory, in full. *)
Lemma main_on_full maps fs :
  OUTPUT_DIR ∈ dirs fs \/ fs_fault OUTPUT_DIR = None ->
  main_on web fs_fault write_residue path_join OUTPUT_DIR maps fs
  = (inr tt,
     {| dirs := dirs (with_output_dir OUTPUT_DIR fs);
        files := apply_writes (omap written'' maps) (files fs) |},
     startup_trace OUTPUT_DIR ++ loop_trace'' maps maps
       ++ BrowserClose
       :: (Print <$> summary_lines OUTPUT_DIR maps
                       (length (omap saved'' maps)) (omap failure'' maps))).
Proof.
  intros Hok.
  destruct (main_on_run web fs_fault write_residue path_join OUTPUT_DIR maps fs Hok)
    as (t0 & Hrun & _).
  cbv zeta in Hrun. rewrite Hrun. f_equal.
  rewrite print_summary_trace.
  enough (t0 = startup_trace OUTPUT_DIR ++ loop_trace'' maps maps ++ [BrowserClose])
    as -> by (by rewrite <- !app_assoc).
  apply (f_equal trace_of) in Hrun. rewrite trace_of_run in Hrun.
  rewrite print_summary_trace in Hrun.
  apply (app_inv_tail (Print <$> summary_lines OUTPUT_DIR maps
                         (length (omap saved'' maps)) (omap failure'' maps))).
  rewrite <- Hrun. clear Hrun t0.
  unfold main_on. py_simpl.
  assert (os_makedirs fs_fault OUTPUT_DIR fs
          = (inr tt, with_output_dir OUTPUT_DIR fs, [Makedirs OUTPUT_DIR])) as Hmk.
  { unfold os_makedirs, with_output_dir.
    destruct (decide (OUTPUT_DIR ∈ dirs fs)); [done|].
    destruct Hok as [Hok|Hok]; [done|]. by rewrite Hok. }
  rewrite (bind_ok _ _ _ _ _ _ Hmk). py_simpl.
  destruct (main_loop_run web fs_fault write_residue path_join OUTPUT_DIR maps [] 0%nat []
              {| page := about_blank; disk := with_output_dir OUTPUT_DIR fs |})
    as (pg & t & Hloop & _).
  pose proof (main_loop_trace maps [] 0%nat []
                {| page := about_blank; disk := with_output_dir OUTPUT_DIR fs |})
    as Htr.
  rewrite Hloop, trace_of_run in Htr. cbn [app] in Htr. subst t.
  erewrite (bind_ok (with_new_page _)).
  2:{ rewrite with_new_page_run. py_simpl.
      rewrite (bind_ok _ _ _ _ _ _ Hloop). py_simpl. reflexivity. }
  py_simpl. rewrite print_summary_trace. unfold startup_trace.
  cbn [app fst snd]. rewrite <- !app_assoc. reflexivity.
Qed.

End Traces.

(* ===================================================================== *)
(** * Further properties of the extraction *)
(* ===================================================================== *)

Lemma str_length_app (a b : string) :
  String.length (a +:+ b) = (String.length a + String.length b)%nat.
Proof. induction a as [|c a IH]; simpl; [done|]. by rewrite IH. Qed.

Lemma page_events_observed t :
  Forall (fun e => is_page_event e = true) t ->
  opened t = [] /\ browser_events t = [].
Proof.
  induction 1 as [|e t He _ (IH1 & IH2)]; [done|].
  destruct e; try discriminate He; done.
Qed.

Lemma elem_of_concat {A} (x : A) (ls : list (list A)) :
  x ∈ concat ls -> exists l, l ∈ ls /\ x ∈ l.
Proof.
  induction ls as [|l ls IH]; simpl; [by intros H%elem_of_nil|].
  intros [H|H]%elem_of_app.
  - exists l. split; [by left|done].
  - destruct (IH H) as (l' & Hl' & Hx). exists l'. split; [by right|done].
Qed.

Lemma probe_event_is_page_event e :
  is_probe_event e = true -> is_page_event e = true.
Proof. by destruct e. Qed.

(** The header step does nothing the second time, and it leaves markup
    as it is exactly when the markup starts with ['<?xml']; what it adds
    is always in front of the markup, which is kept whole. *)
Theorem header_step_is_idempotent (svg_content : string) :
  add_svg_header (add_svg_header svg_content) = add_svg_header svg_content
  /\ (add_svg_header svg_content = svg_content
      <-> startswith svg_content "<?xml" = true)
  /\ exists front,
       add_svg_header svg_content = front +:+ svg_content
       /\ (front = EmptyString \/ front = XML_HEADER).
Proof.
  split; [|split].
  - unfold add_svg_header at 1. by rewrite add_svg_header_starts.
  - unfold add_svg_header. destruct (startswith svg_content "<?xml") eqn:E.
    + by split.
    + cbn [negb]. split; [|done]. intros H.
      apply (f_equal String.length) in H. rewrite str_length_app in H.
      simpl in H. lia.
  - unfold add_svg_header. destruct (startswith svg_content "<?xml").
    + exists EmptyString. split; [done|by left].
    + exists XML_HEADER. split; [done|by right].
Qed.

(** Within one selector, the first element that is accepted or whose
    serialization raises ends the loop over the elements: the elements
    after it are never serialized. *)
Theorem probing_stops_at_first_accepted_or_stale
    (selector : string) (before after : list ElementHandle)
    (el : ElementHandle) (doc : Document) :
  Forall (fun x => exists c, outerHTML x = inr c /\ len c <= 10000) before ->
  let run := probe_elements selector (before ++ el :: after) doc in
  (forall e, outerHTML el = inl e ->
             result_of run = inl e
             /\ serializations (trace_of run) = S (length before))
  /\ (forall content,
        outerHTML el = inr content ->
        10000 < len content ->
        result_of run = inr (Some content)
        /\ serializations (trace_of run) = S (length before)).
Proof.
  intros Hb. cbv zeta.
  induction Hb as [|x before (c & Hc & Hle) _ IH].
  - cbn [app length]. rewrite probe_elements_cons. split.
    + intros e ->. by py_simpl.
    + intros content -> Hlen. unfold above_threshold.
      apply Z.ltb_lt in Hlen. rewrite Hlen. by py_simpl.
  - cbn [app length]. rewrite probe_elements_cons, Hc.
    unfold above_threshold. apply Z.ltb_ge in Hle. rewrite Hle. py_simpl.
    destruct IH as [IH1 IH2]. split.
    + intros e He. destruct (IH1 e He) as [-> Hn]. split; [done|].
      change (ElementEvaluate :: ?t) with ([ElementEvaluate] ++ t).
      by rewrite serializations_app, Hn.
    + intros content Hcn Hlen. destruct (IH2 content Hcn Hlen) as [-> Hn].
      split; [done|].
      change (ElementEvaluate :: ?t) with ([ElementEvaluate] ++ t).
      by rewrite serializations_app, Hn.
Qed.

Section MoreExtraction.

Variable web : string -> exn + Document.

Lemma extract_map_svg_events m doc0 :
  Forall (fun e => is_page_event e = true) (trace_of (extract_map_svg web m doc0)).
Proof.
  assert (forall doc, Forall (fun e => is_page_event e = true)
                             (trace_of (probe_selectors svg_selectors doc))) as Hp.
  { intros doc. eapply Forall_impl; [apply probe_selectors_events|].
    apply probe_event_is_page_event. }
  destruct (web (url m)) as [e|doc] eqn:E.
  - rewrite (extract_map_svg_goto_fails web m _ e E). by repeat constructor.
  - rewrite (extract_map_svg_loaded web m _ doc E).
    destruct (find above_threshold (concat (examined doc <$> svg_selectors)));
      py_simpl; repeat (apply Forall_cons; split; [done|]).
    + apply Hp.
    + apply Forall_app. split; [apply Hp|by repeat constructor].
Qed.

(** When the page of a target does not load, the exception of the
    navigation leaves [extract_map_svg] at once: nothing follows the call
    of [goto], no wait, no selector query, no page script. *)
Theorem navigation_failure_leaves_at_once (m : MapInfo) (doc0 : Document) (e : exn) :
  web (url m) = inl e ->
  result_of (extract_map_svg web m doc0) = inl e
  /\ trace_of (extract_map_svg web m doc0)
     = [Print ("  Loading " +:+ name m +:+ "..."); Goto (url m)].
Proof.
  intros H. by rewrite (extract_map_svg_goto_fails web m doc0 e H).
Qed.

(** An exception of the page script of the fallback is not caught inside
    [extract_map_svg], unlike one of a selector: when probing accepts
    nothing and the script raises, the extraction raises the same exception,
    after having queried all seven selectors and run the script once. *)
Theorem script_failure_leaves_the_extraction
    (m : MapInfo) (doc0 doc : Document) (e : exn) :
  web (url m) = inr doc ->
  Forall (nothing_accepted doc) svg_selectors ->
  evaluate_fault doc = Some e ->
  let run := extract_map_svg web m doc0 in
  result_of run = inl e
  /\ queried (trace_of run) = svg_selectors
  /\ script_runs (trace_of run) = 1%nat.
Proof.
  intros Hweb Hall Hev. cbv zeta.
  assert (find above_threshold (concat (examined doc <$> svg_selectors)) = None)
    as Hnone.
  { apply find_none_below, Forall_concat, Forall_fmap. exact Hall. }
  destruct (probe_selectors_spec svg_selectors doc) as (Hr & _ & _).
  destruct (probe_selectors_queried svg_selectors doc) as (_ & _ & Hq).
  rewrite Hnone in Hr. specialize (Hq Hr).
  destruct (probe_events_observed _ (probe_selectors_events svg_selectors doc))
    as (_ & _ & _ & Hs).
  rewrite (extract_map_svg_loaded web m _ doc Hweb), Hnone, Hev. py_simpl.
  split; [done|]. split.
  - cbn [app]. trace_simpl. by rewrite Hq, app_nil_r.
  - change (?a :: ?b :: ?c :: ?t) with ([a; b; c] ++ t).
    by rewrite !script_runs_app, Hs.
Qed.

(** When probing accepts markup, the extraction returns it without
    running the page script, so that a page whose script would fail is
    extracted all the same; the markup is longer than 10,000 characters. *)
Theorem accepted_probe_skips_the_fallback
    (m : MapInfo) (doc0 doc : Document) (content : string) :
  web (url m) = inr doc ->
  result_of (probe_selectors svg_selectors doc) = inr (Some content) ->
  let run := extract_map_svg web m doc0 in
  result_of run = inr (Some content)
  /\ script_runs (trace_of run) = 0%nat
  /\ 10000 < len content.
Proof.
  intros Hweb Hp. cbv zeta.
  destruct (probe_selectors_spec svg_selectors doc) as (Hr & _ & _).
  assert (find above_threshold (concat (examined doc <$> svg_selectors))
          = Some content) as Hf by congruence.
  destruct (probe_events_observed _ (probe_selectors_events svg_selectors doc))
    as (_ & _ & _ & Hs).
  rewrite (extract_map_svg_loaded web m _ doc Hweb), Hf. py_simpl.
  split; [done|]. split.
  - change (?a :: ?b :: ?c :: ?t) with ([a; b; c] ++ t).
    by rewrite !script_runs_app, Hs.
  - apply find_above_split in Hf as (_ & _ & _ & _ & Hlen). exact Hlen.
Qed.

(** Markup that is returned is never put together by the script: it is
    the serialization of one element of the page that was loaded, either
    one seen under a selector and longer than 10,000 characters, or, when
    probing accepted nothing, one of the [svg] elements of the document; it
    is never the empty string. *)
Theorem extracted_markup_is_one_serialization
    (m : MapInfo) (doc0 : Document) (content : string) :
  result_of (extract_map_svg web m doc0) = inr (Some content) ->
  exists doc,
    web (url m) = inr doc
    /\ 0 < len content
    /\ ((exists selector,
           selector ∈ svg_selectors
           /\ content ∈ examined doc selector
           /\ 10000 < len content)
        \/ (Forall (nothing_accepted doc) svg_selectors
            /\ content ∈ document_svgs doc)).
Proof.
  intros H. destruct (web (url m)) as [e|doc] eqn:E.
  - by rewrite (extract_map_svg_goto_fails web m _ e E) in H.
  - rewrite (extract_map_svg_loaded web m _ doc E) in H.
    exists doc. split; [done|].
    destruct (find above_threshold (concat (examined doc <$> svg_selectors)))
      as [c|] eqn:F; rewrite result_of_run in H.
    + assert (c = content) as -> by congruence.
      pose proof (find_above_split _ _ F) as (before & after & Heq & _ & Hlen).
      split; [lia|]. left.
      assert (content ∈ concat (examined doc <$> svg_selectors)) as Hin.
      { rewrite Heq, elem_of_app, elem_of_cons. right. by left. }
      apply elem_of_concat in Hin as (l & Hl & Hc).
      apply list_elem_of_fmap in Hl as (selector & -> & Hs).
      by exists selector.
    + destruct (evaluate_fault doc); [done|].
      assert (largest_svg (document_svgs doc) = Some content) as Hl by congruence.
      apply largest_svg_some in Hl as (pre & post & Heq & Hh & _).
      split; [done|]. right. split.
      * apply Forall_fmap, Forall_concat, find_none_below, F.
      * rewrite Heq, elem_of_app, elem_of_cons. right. by left.
Qed.

End MoreExtraction.

(* ===================================================================== *)
(** * Further properties of the run *)
(* ===================================================================== *)

Lemma last_write_none (ws : list (string * string)) path :
  Forall (fun w => w.1 <> path) ws -> last_write ws path = None.
Proof.
  induction 1 as [|w ws Hw _ IH]; [done|].
  cbn [last_write]. rewrite IH. by rewrite decide_False.
Qed.

Lemma last_write_app ws1 ws2 path :
  last_write (ws1 ++ ws2) path
  = match last_write ws2 path with
    | Some content => Some content
    | None => last_write ws1 path
    end.
Proof.
  induction ws1 as [|w ws1 IH]; cbn [app last_write].
  - by destruct (last_write ws2 path).
  - rewrite IH. by destruct (last_write ws2 path).
Qed.

Section MoreRun.

Variable web : string -> exn + Document.
Variable fs_fault : string -> option exn.
Variable write_residue : string -> string -> option string.
Variable path_join : string -> string -> string.
Variable OUTPUT_DIR : string.

Abbreviation saved_ := (saved web fs_fault path_join OUTPUT_DIR).
Abbreviation written_ := (written web fs_fault write_residue path_join OUTPUT_DIR).
Abbreviation failure_ := (failure web fs_fault path_join OUTPUT_DIR).
Abbreviation main_on_ := (main_on web fs_fault write_residue path_join OUTPUT_DIR).
Abbreviation process_target_ := (process_target web fs_fault write_residue path_join OUTPUT_DIR).
Abbreviation output_path_ := (output_path path_join OUTPUT_DIR).
Abbreviation outcome_events_ := (outcome_events web fs_fault path_join OUTPUT_DIR).
Abbreviation target_trace_ := (target_trace web fs_fault path_join OUTPUT_DIR).
Abbreviation loop_trace_ := (loop_trace web fs_fault path_join OUTPUT_DIR).
Abbreviation attempted_write_ := (attempted_write web path_join OUTPUT_DIR).

Lemma outcome_events_observed m :
  visited (outcome_events_ m) = []
  /\ opened (outcome_events_ m) = option_list (attempted_write_ m)
  /\ browser_events (outcome_events_ m) = [].
Proof.
  unfold outcome_events, attempted_write.
  destruct (extraction web m) as [e|[content|]]; [done| |done].
  by destruct (fs_fault (output_path_ m)).
Qed.

Lemma target_trace_observed maps m :
  visited (target_trace_ maps m) = [url m]
  /\ opened (target_trace_ maps m) = option_list (attempted_write_ m)
  /\ browser_events (target_trace_ maps m) = [].
Proof.
  destruct (outcome_events_observed m) as (Hv & Ho & Hb).
  destruct (page_events_observed _ (extract_map_svg_events web m about_blank))
    as (Ho' & Hb').
  unfold target_trace.
  change (?e :: ?t ++ ?u) with ([e] ++ t ++ u).
  rewrite !visited_app, !opened_app, !browser_events_app.
  rewrite (extract_map_svg_visited web m about_blank), Hv, Ho, Hb, Ho', Hb'.
  done.
Qed.

Lemma loop_trace_observed maps todo :
  visited (loop_trace_ maps todo) = url <$> todo
  /\ opened (loop_trace_ maps todo) = omap attempted_write_ todo
  /\ browser_events (loop_trace_ maps todo) = [].
Proof.
  induction todo as [|m todo (IH1 & IH2 & IH3)]; [done|].
  destruct (target_trace_observed maps m) as (Hv & Ho & Hb).
  unfold loop_trace in *. rewrite fmap_cons. cbn [concat].
  rewrite visited_app, opened_app, browser_events_app, Hv, Ho, Hb, IH1, IH2, IH3.
  split; [done|]. split; [|done].
  cbn [omap list_omap]. by destruct (attempted_write_ m).
Qed.

Lemma written_inv m w :
  written_ m = Some w ->
  w.1 = output_path_ m
  /\ exists content, extraction web m = inr (Some content).
Proof.
  unfold written. destruct (extraction web m) as [e|[content|]]; try done.
  destruct (fs_fault (output_path_ m)).
  - destruct (write_residue (output_path_ m) (add_svg_header content)); [|done].
    intros [= <-]. eauto.
  - intros [= <-]. eauto.
Qed.

(** The disk after any run: the files after what the targets put there,
    and the output directory added when it could be made. *)
Lemma main_on_disk maps fs :
  (files (state_of (main_on_ maps fs)) = files fs
   \/ files (state_of (main_on_ maps fs))
      = apply_writes (omap written_ maps) (files fs))
  /\ (dirs (state_of (main_on_ maps fs)) = dirs fs
      \/ dirs (state_of (main_on_ maps fs)) = {[ OUTPUT_DIR ]} ∪ dirs fs).
Proof.
  destruct (decide (OUTPUT_DIR ∈ dirs fs)) as [Hin|Hout];
    [|destruct (fs_fault OUTPUT_DIR) as [e|] eqn:Hf].
  - rewrite (main_on_full web fs_fault write_residue path_join OUTPUT_DIR maps fs (or_introl Hin)).
    py_simpl. cbn [files dirs]. split; [by right|].
    left. by rewrite with_output_dir_id.
  - rewrite (main_on_makedirs_fails web fs_fault write_residue path_join OUTPUT_DIR maps fs e Hout Hf).
    py_simpl. split; by left.
  - rewrite (main_on_full web fs_fault write_residue path_join OUTPUT_DIR maps fs (or_intror Hf)).
    py_simpl. cbn [files dirs]. split; [by right|].
    right. unfold with_output_dir. by rewrite decide_False.
Qed.

(** A target whose extraction gives no markup, or raises, is recorded as
    failed without any file being opened: the disk is left as it is.  The
    two cases differ by their last line only: [FAIL] for no markup, [ERROR]
    with the text of the exception for an exception. *)
Theorem failed_extraction_is_recorded_without_write
    (done rest : list MapInfo) (m : MapInfo)
    (extracted_count : nat) (failed_maps : list string) (p : Process) :
  let run := process_target_ (done ++ m :: rest) m extracted_count failed_maps p in
  (extraction web m = inr None ->
   result_of run = inr (extracted_count, failed_maps ++ [name m])
   /\ disk (state_of run) = disk p
   /\ opened (trace_of run) = []
   /\ last (trace_of run)
      = Some (Print ("  [FAIL] Failed to extract SVG for " +:+ name m)))
  /\ (forall e,
        extraction web m = inl e ->
        result_of run = inr (extracted_count, failed_maps ++ [name m])
        /\ disk (state_of run) = disk p
        /\ opened (trace_of run) = []
        /\ last (trace_of run)
           = Some (Print ("  [ERROR] Error extracting " +:+ name m +:+ ": "
                            +:+ exn_str e))).
Proof.
  cbv zeta. rewrite process_target_full. py_simpl.
  destruct (target_trace_observed (done ++ m :: rest) m) as (_ & Ho & _).
  rewrite Ho. unfold target_trace, outcome_events, attempted_write, saved, written.
  split.
  - intros ->. cbn [option_list apply_writes foldl disk files dirs].
    split; [done|]. split; [by destruct (disk p)|]. split; [done|].
    by rewrite app_comm_cons, last_snoc.
  - intros e ->. cbn [option_list apply_writes foldl disk files dirs].
    split; [done|]. split; [by destruct (disk p)|]. split; [done|].
    by rewrite app_comm_cons, last_snoc.
Qed.

(** The line that opens a target shows the position of the first entry of
    the list equal to it: the position of the target itself when no equal
    entry comes before, an earlier position when the list repeats an
    entry. *)
Theorem progress_counter_is_first_position
    (done rest : list MapInfo) (m : MapInfo)
    (extracted_count : nat) (failed_maps : list string) (p : Process) :
  exists i t,
    trace_of (process_target_ (done ++ m :: rest) m extracted_count failed_maps p)
    = Print (newline +:+ "[" +:+ pretty (i + 1)%nat +:+ "/"
               +:+ pretty (length (done ++ m :: rest)) +:+ "] Extracting "
               +:+ name m +:+ "...") :: t
    /\ (m ∉ done -> i = length done)
    /\ (m ∈ done -> (i < length done)%nat).
Proof.
  destruct (list_index_first m done rest) as (i & Hi & _ & Hnotin & Hin).
  rewrite process_target_full. py_simpl.
  unfold target_trace, progress_line. rewrite Hi. cbn [default].
  by eexists i, _.
Qed.

(** Every target is navigated to once, in list order, whatever happened to
    the targets before it: no target is skipped and none is tried again. *)
Theorem every_target_is_visited_once (maps : list MapInfo) (fs : FileSystem) :
  OUTPUT_DIR ∈ dirs fs \/ fs_fault OUTPUT_DIR = None ->
  visited (trace_of (main_on_ maps fs)) = url <$> maps.
Proof.
  intros Hok.
  rewrite (main_on_full web fs_fault write_residue path_join OUTPUT_DIR maps fs Hok). py_simpl.
  destruct (loop_trace_observed maps maps) as (Hv & _ & _).
  rewrite !visited_app, Hv.
  change (BrowserClose :: ?t) with ([BrowserClose] ++ t).
  by rewrite visited_app, visited_prints, !app_nil_r.
Qed.

(** A file is opened for writing once for each target whose extraction
    gave markup, in list order, and for no other target. *)
Theorem files_are_opened_for_extracted_targets (maps : list MapInfo) (fs : FileSystem) :
  OUTPUT_DIR ∈ dirs fs \/ fs_fault OUTPUT_DIR = None ->
  opened (trace_of (main_on_ maps fs)) = omap attempted_write_ maps.
Proof.
  intros Hok.
  rewrite (main_on_full web fs_fault write_residue path_join OUTPUT_DIR maps fs Hok). py_simpl.
  destruct (loop_trace_observed maps maps) as (_ & Ho & _).
  rewrite !opened_app, Ho.
  change (BrowserClose :: ?t) with ([BrowserClose] ++ t).
  by rewrite opened_app, opened_prints, !app_nil_r.
Qed.

(** The browser is started once and closed once, whatever happens to the
    targets, and it is closed after the last navigation and the last
    write: only the lines of the summary follow.  When the output directory
    cannot be made the browser is not started at all. *)
Theorem browser_is_closed_once (maps : list MapInfo) (fs : FileSystem) :
  (OUTPUT_DIR ∈ dirs fs \/ fs_fault OUTPUT_DIR = None ->
   browser_events (trace_of (main_on_ maps fs))
   = [BrowserLaunch; NewContext; NewPage; BrowserClose]
   /\ exists t lines,
        trace_of (main_on_ maps fs) = t ++ BrowserClose :: (Print <$> lines))
  /\ ((OUTPUT_DIR ∉ dirs fs) ->
      is_Some (fs_fault OUTPUT_DIR) ->
      browser_events (trace_of (main_on_ maps fs)) = []).
Proof.
  split.
  - intros Hok.
    rewrite (main_on_full web fs_fault write_residue path_join OUTPUT_DIR maps fs Hok). py_simpl.
    destruct (loop_trace_observed maps maps) as (_ & _ & Hb). split.
    + rewrite !browser_events_app, Hb.
      change (BrowserClose :: ?t) with ([BrowserClose] ++ t).
      by rewrite browser_events_app, browser_events_prints.
    + eexists (_ ++ _), _. by rewrite <- app_assoc.
  - intros Hout [e Hf].
    by rewrite (main_on_makedirs_fails web fs_fault write_residue path_join OUTPUT_DIR maps fs e Hout Hf).
Qed.

(** The creation of the output directory is the first thing [main] does
    after its three title lines, before the browser is started and before any
    file is opened; after a run that got past it the directory exists. *)
Theorem output_directory_is_made_first (maps : list MapInfo) (fs : FileSystem) :
  (exists t,
     trace_of (main_on_ maps fs)
     = [Print (str_repeat "=" 60); Print "Tarkov Market Map SVG Extractor";
        Print (str_repeat "=" 60); Makedirs OUTPUT_DIR] ++ t)
  /\ (OUTPUT_DIR ∈ dirs fs \/ fs_fault OUTPUT_DIR = None ->
      OUTPUT_DIR ∈ dirs (state_of (main_on_ maps fs))).
Proof.
  split.
  - destruct (decide (OUTPUT_DIR ∈ dirs fs)) as [Hin|Hout];
      [|destruct (fs_fault OUTPUT_DIR) as [e|] eqn:Hf].
    + rewrite (main_on_full web fs_fault write_residue path_join OUTPUT_DIR maps fs (or_introl Hin)).
      py_simpl. by eexists.
    + rewrite (main_on_makedirs_fails web fs_fault write_residue path_join OUTPUT_DIR maps fs e Hout Hf).
      py_simpl. by exists [].
    + rewrite (main_on_full web fs_fault write_residue path_join OUTPUT_DIR maps fs (or_intror Hf)).
      py_simpl. by eexists.
  - intros Hok.
    rewrite (main_on_full web fs_fault write_residue path_join OUTPUT_DIR maps fs Hok). py_simpl.
    cbn [dirs]. apply (output_dir_made web fs_fault write_residue path_join).
Qed.

Lemma written_paths_differ maps path :
  (forall m content,
      m ∈ maps ->
      output_path_ m = path ->
      extraction web m <> inr (Some content)) ->
  Forall (fun w => w.1 <> path) (omap written_ maps).
Proof.
  intros H. apply Forall_forall. intros w Hw.
  apply list_elem_of_omap in Hw as (m & Hm & Hs).
  apply written_inv in Hs as (Hp & content & Hx).
  rewrite Hp. intros Hpath. by apply (H m content Hm Hpath).
Qed.

(** A run changes no file but the ones it opens: a path that is the
    output path of no target, or only of targets whose extraction gave no
    markup, holds after the run what it held before.  In particular the
    file an earlier run saved for a target survives a run in which the
    extraction of that target fails. *)
Theorem run_leaves_other_files (maps : list MapInfo) (fs : FileSystem) (path : string) :
  (forall m content,
      m ∈ maps ->
      output_path_ m = path ->
      extraction web m <> inr (Some content)) ->
  files (state_of (main_on_ maps fs)) !! path = files fs !! path.
Proof.
  intros H. destruct (main_on_disk maps fs) as [[->| ->] _]; [done|].
  rewrite lookup_apply_writes, last_write_none; [done|].
  by apply written_paths_differ.
Qed.

(** After a run, the file of a target whose markup was extracted and
    written holds the markup after the header step, provided no later
    target of the list has the same output path. *)
Theorem saved_file_holds_the_markup
    (pre post : list MapInfo) (m : MapInfo) (fs : FileSystem) (raw : string) :
  OUTPUT_DIR ∈ dirs fs \/ fs_fault OUTPUT_DIR = None ->
  extraction web m = inr (Some raw) ->
  fs_fault (output_path_ m) = None ->
  (forall m', m' ∈ post -> output_path_ m' <> output_path_ m) ->
  files (state_of (main_on_ (pre ++ m :: post) fs)) !! output_path_ m
  = Some (add_svg_header raw).
Proof.
  intros Hok Hx Hf Hpost.
  rewrite (main_on_full web fs_fault write_residue path_join OUTPUT_DIR _ fs Hok). py_simpl.
  cbn [files]. rewrite lookup_apply_writes, omap_app, last_write_app.
  cbn [omap list_omap]. unfold written at 1. rewrite Hx, Hf.
  cbn [last_write]. fold (omap written_ post).
  rewrite (last_write_none (omap written_ post)).
  - cbn [fst snd]. by rewrite decide_True.
  - apply written_paths_differ. intros m' content Hm' Hp.
    by destruct (Hpost m' Hm').
Qed.

(** When every target is extracted and written, the summary counts all of
    them and has no line of failed targets. *)
Theorem summary_without_failures (maps : list MapInfo) (fs : FileSystem) :
  OUTPUT_DIR ∈ dirs fs \/ fs_fault OUTPUT_DIR = None ->
  (forall m, m ∈ maps -> exists content, extraction web m = inr (Some content)) ->
  (forall m, m ∈ maps -> fs_fault (output_path_ m) = None) ->
  exists lines,
    printed (trace_of (main_on_ maps fs))
    = lines ++ [newline +:+ str_repeat "=" 60; "Extraction Complete!";
                str_repeat "=" 60; count_line maps (length maps);
                newline +:+ "Maps saved to: " +:+ OUTPUT_DIR].
Proof.
  intros Hok Hx Hw.
  destruct (saved_all web fs_fault path_join OUTPUT_DIR maps) as [Hl Hf].
  { intros m Hm. destruct (Hx m Hm) as [c Hc]. unfold saved.
    rewrite Hc, (Hw m Hm). eauto. }
  rewrite (main_on_full web fs_fault write_residue path_join OUTPUT_DIR maps fs Hok). py_simpl.
  rewrite Hl, Hf.
  change (BrowserClose :: ?t) with ([BrowserClose] ++ t).
  rewrite !printed_app, printed_prints. unfold summary_lines. cbn [app].
  eexists. rewrite !app_assoc. reflexivity.
Qed.

(** When no target gives markup (the site is down, or no page has an
    [svg]), the run still ends normally: no file is opened, the files are
    as before, and the summary counts zero and names every target, in list
    order. *)
Theorem run_with_every_target_failing (maps : list MapInfo) (fs : FileSystem) :
  OUTPUT_DIR ∈ dirs fs \/ fs_fault OUTPUT_DIR = None ->
  (forall m content, m ∈ maps -> extraction web m <> inr (Some content)) ->
  result_of (main_on_ maps fs) = inr tt
  /\ files (state_of (main_on_ maps fs)) = files fs
  /\ opened (trace_of (main_on_ maps fs)) = []
  /\ exists lines,
       printed (trace_of (main_on_ maps fs))
       = lines ++ summary_lines OUTPUT_DIR maps 0%nat (name <$> maps).
Proof.
  intros Hok Hfail.
  assert (omap saved_ maps = [] /\ omap failure_ maps = name <$> maps
          /\ omap attempted_write_ maps = [] /\ omap written_ maps = [])
    as (Hs & Hf & Ha & Hw).
  { induction maps as [|m maps IH]; [done|].
    destruct IH as (IH1 & IH2 & IH3 & IH4).
    { intros m' c Hm'. apply Hfail. by right. }
    assert (saved_ m = None /\ attempted_write_ m = None /\ written_ m = None)
      as (Hsm & Ham & Hwm).
    { unfold saved, attempted_write, written.
      destruct (extraction web m) as [e|[c|]] eqn:E; try done.
      exfalso. apply (Hfail m c); [by left|done]. }
    cbn [omap list_omap]. unfold failure at 1. rewrite Hsm, Ham, Hwm.
    fold (omap saved_ maps) (omap failure_ maps) (omap attempted_write_ maps)
         (omap written_ maps).
    by rewrite IH1, IH2, IH3, IH4. }
  rewrite (main_on_full web fs_fault write_residue path_join OUTPUT_DIR maps fs Hok). py_simpl.
  rewrite Hs, Hf, Hw. cbn [files apply_writes foldl length].
  destruct (loop_trace_observed maps maps) as (_ & Ho & _).
  split; [done|]. split; [done|]. split.
  - rewrite !opened_app, Ho, Ha.
    change (BrowserClose :: ?t) with ([BrowserClose] ++ t).
    by rewrite opened_app, opened_prints.
  - change (BrowserClose :: ?t) with ([BrowserClose] ++ t).
    rewrite !printed_app, printed_prints.
    eexists. rewrite !app_assoc. reflexivity.
Qed.

(** A run removes nothing: every file and every directory of the disk is
    still there afterwards. *)
Theorem run_removes_nothing (maps : list MapInfo) (fs : FileSystem) (path : string) :
  (is_Some (files fs !! path) ->
   is_Some (files (state_of (main_on_ maps fs)) !! path))
  /\ (path ∈ dirs fs -> path ∈ dirs (state_of (main_on_ maps fs))).
Proof.
  destruct (main_on_disk maps fs) as [Hf Hd]. split.
  - intros Hsome. destruct Hf as [-> | ->]; [done|].
    rewrite lookup_apply_writes.
    by destruct (last_write (omap written_ maps) path); eauto.
  - intros Hin. destruct Hd as [-> | ->]; [done|].
    apply elem_of_union. by right.
Qed.

End MoreRun.

(* ===================================================================== *)
(** * The properties on concrete sites *)
(* ===================================================================== *)

Import Fixture.

Ltac by_evaluation := vm_compute; reflexivity.
Ltac by_decision := apply (bool_decide_unpack _); vm_compute; exact I.

(** On the page with the map, probing skips the element of 9,999 characters
    of the container selector and the one of 10,000 of the attribute
    selector, and accepts the one of 10,001; the three selectors after the
    attribute selector are not queried. *)
Lemma probing_on_page_with_map :
  result_of (probe_selectors svg_selectors page_with_map) = inr (Some svg_10001)
  /\ queried (trace_of (probe_selectors svg_selectors page_with_map))
     = ["svg.svg-map"; ".map-container svg"; ".map-wrapper svg"; "svg[viewBox]"]
  /\ exists pre selector post before after,
       svg_selectors = pre ++ selector :: post
       /\ Forall (nothing_accepted page_with_map) pre
       /\ examined page_with_map selector = before ++ svg_10001 :: after
       /\ Forall (fun c => len c <= 10000) before
       /\ 10000 < len svg_10001
       /\ queried (trace_of (probe_selectors svg_selectors page_with_map))
          = pre ++ [selector].
Proof.
  assert (result_of (probe_selectors svg_selectors page_with_map)
          = inr (Some svg_10001)) as H by by_evaluation.
  split; [exact H|]. split; [by_evaluation|].
  exact (proj1 (proj2 (probing_accepts_first_above_threshold
                         page_with_map svg_selectors)) svg_10001 H).
Defined.

(** On the page with stale handles the first query raises: probing goes on
    with the six other selectors, meets a stale handle under the second,
    and returns the map found under the fourth. *)
Lemma probing_on_page_with_stale_handles :
  result_of (probe_selector "svg.svg-map" page_with_stale_handles)
  = inl (PlaywrightError "Execution context was destroyed")
  /\ result_of (probe_selector ".map-container svg" page_with_stale_handles)
     = inl (PlaywrightError "Element is not attached to the DOM")
  /\ probe_selectors svg_selectors page_with_stale_handles
     = (result_of (probe_selectors (tail svg_selectors) page_with_stale_handles),
        page_with_stale_handles,
        trace_of (probe_selector "svg.svg-map" page_with_stale_handles)
          ++ trace_of (probe_selectors (tail svg_selectors) page_with_stale_handles))
  /\ result_of (probe_selectors svg_selectors page_with_stale_handles)
     = inr (Some svg_10001).
Proof.
  assert (result_of (probe_selector "svg.svg-map" page_with_stale_handles)
          = inl (PlaywrightError "Execution context was destroyed")) as H
    by by_evaluation.
  split; [exact H|]. split; [by_evaluation|]. split; [|by_evaluation].
  exact (proj1 (selector_error_is_not_fatal
                  page_with_stale_handles "svg.svg-map"
                  [".map-container svg"; ".map-wrapper svg"; "svg[viewBox]";
                   "#map svg"; ".leaflet-container svg"; "svg"]
                  (PlaywrightError "Execution context was destroyed") H)).
Defined.

(** Two icons of the same length: the first one is returned. *)
Lemma fallback_on_two_icons_of_equal_length :
  len icon_a = len icon_b
  /\ largest_svg [icon_small; icon_a; icon_b] = Some icon_a.
Proof.
  split; [by_evaluation|].
  apply (proj2 (proj1 (fallback_ties_first_in_document_order
                         [icon_small; icon_a; icon_b] icon_a))).
  exists [icon_small], [icon_b].
  split; [reflexivity|]. split; [by_evaluation|]. split; by_decision.
Defined.

(** On [Woods], whose page has icons only, all seven selectors are
    queried. *)
Lemma selectors_queried_on_woods :
  queried (trace_of (extract_map_svg site woods about_blank))
  = ["svg.svg-map"; ".map-container svg"; ".map-wrapper svg"; "svg[viewBox]";
     "#map svg"; ".leaflet-container svg"; "svg"].
Proof.
  apply (proj2 (proj2 (proj2 (selectors_are_tried_in_fixed_order
                                site woods about_blank page_with_icons)))).
  - by_evaluation.
  - by_decision.
Defined.

(** On [Woods] the fallback returns an icon of 27 characters. *)
Lemma fallback_on_woods :
  result_of (extract_map_svg site woods about_blank) = inr (Some icon_a)
  /\ len icon_a = 27
  /\ PageEvaluate ∈ trace_of (extract_map_svg site woods about_blank).
Proof.
  assert (site (url woods) = inr page_with_icons) as Hweb by by_evaluation.
  assert (Forall (nothing_accepted page_with_icons) svg_selectors) as Hall
    by by_decision.
  assert (evaluate_fault page_with_icons = None) as Hev by reflexivity.
  assert (Forall (fun html => html <> EmptyString) (document_svgs page_with_icons))
    as Hne by by_decision.
  destruct (fallback_returns_largest site woods about_blank page_with_icons
              Hweb Hall Hev Hne) as (Hr & Hp & _).
  split; [|split; [by_evaluation|exact Hp]].
  rewrite Hr. by_evaluation.
Defined.

(** A run over [Factory], [Customs], [Woods] on a disk that takes every
    write: [Customs] does not load, the two others are saved. *)
Lemma run_with_customs_down :
  let maps := [factory; customs; woods] in
  let run := main_on site no_fault untouched posix_join OUT maps empty_disk in
  result_of run = inr tt
  /\ visited (trace_of run) = url <$> maps
  /\ exists lines,
       printed (trace_of run)
       = lines ++ ["Successfully extracted: 2/3 maps"; "Failed maps: Customs";
                   newline +:+ "Maps saved to: /repo/TarkovHelper/Assets/Maps"].
Proof.
  cbv zeta.
  assert (forall m, m ∈ [factory] ++ [woods] ->
                    exists content, extraction site m = inr (Some content)) as Hx.
  { intros m Hm.
    apply elem_of_cons in Hm as [->|Hm]; [eexists; by_evaluation|].
    apply elem_of_cons in Hm as [->|Hm]; [eexists; by_evaluation|].
    by apply elem_of_nil in Hm. }
  destruct (one_failure_is_isolated site no_fault untouched posix_join OUT
              [factory] [woods] customs empty_disk) as (_ & Hr & Hv & Hp).
  - right. reflexivity.
  - right. eexists. by_evaluation.
  - exact Hx.
  - intros m _. reflexivity.
  - split; [exact Hr|]. split; [exact Hv|]. exact Hp.
Defined.

(** The counter and the failure list after the loop on the same run: two
    targets succeeded, [Customs] failed. *)
Lemma counts_with_customs_down :
  (exists extracted_count failed_maps,
     result_of (main_loop site no_fault untouched posix_join OUT []
                  [factory; customs; woods]
                  0%nat [] {| page := about_blank; disk := empty_disk |})
     = inr (extracted_count, failed_maps)
     /\ (extracted_count + length failed_maps)%nat = 3%nat
     /\ failed_maps `sublist_of` ["Factory"; "Customs"; "Woods"]
     /\ extracted_count
        = length (filter (fun m => target_succeeds site no_fault posix_join OUT m = true)
                         [factory; customs; woods])
     /\ failed_maps
        = name <$> filter (fun m => target_succeeds site no_fault posix_join OUT m
                                    = false)
                          [factory; customs; woods])
  /\ length (filter (fun m => target_succeeds site no_fault posix_join OUT m = true)
                    [factory; customs; woods]) = 2%nat
  /\ name <$> filter (fun m => target_succeeds site no_fault posix_join OUT m = false)
                     [factory; customs; woods] = ["Customs"].
Proof.
  split; [|split; by_evaluation].
  exact (every_target_counted_once site no_fault untouched posix_join OUT
           [factory; customs; woods]
           {| page := about_blank; disk := empty_disk |}).
Defined.

(** Running again on the disk of the first run changes nothing. *)
Lemma second_run_with_customs_down :
  let fs1 := state_of (main_on site no_fault untouched posix_join OUT
                         [factory; customs; woods] empty_disk) in
  state_of (main_on site no_fault untouched posix_join OUT [factory; customs; woods] fs1)
  = fs1
  /\ files fs1 !! "/repo/TarkovHelper/Assets/Maps/Woods.svg"
     = Some (XML_HEADER +:+ icon_a).
Proof.
  cbv zeta. split.
  - exact (proj1 (second_run_leaves_files_unchanged site no_fault untouched posix_join OUT
                    [factory; customs; woods] empty_disk)).
  - by_evaluation.
Defined.

(** The file of [Factory] is read-only: the target is recorded as
    failed, with the line of the handler. *)
Lemma factory_read_only_is_recorded :
  let run := process_target site factory_read_only untouched posix_join OUT
               [factory; customs; woods] factory 0%nat []
               {| page := about_blank; disk := empty_disk |} in
  result_of run = inr (0%nat, ["Factory"])
  /\ Print ("  [ERROR] Error extracting Factory: [Errno 13] Permission denied: "
              +:+ "'/repo/TarkovHelper/Assets/Maps/Factory.svg'")
       ∈ trace_of run.
Proof.
  exact (proj1 (proj2 (write_failure_is_recorded_for_the_target
                         site factory_read_only untouched posix_join OUT))
           [] factory [customs; woods] 0%nat []
           {| page := about_blank; disk := empty_disk |}
           svg_10001
           (OSError ("[Errno 13] Permission denied: "
                       +:+ "'/repo/TarkovHelper/Assets/Maps/Factory.svg'"))
           ltac:(by_evaluation) ltac:(by_evaluation)).
Defined.

(** When the disk fills up while the file of [Factory] is written, the
    file an earlier run saved for it is lost: it is left empty. *)
Lemma factory_file_lost_when_disk_full :
  let run := main_on site factory_disk_full truncated posix_join OUT
               [factory; customs; woods] disk_with_old_factory in
  files disk_with_old_factory !! "/repo/TarkovHelper/Assets/Maps/Factory.svg"
  = Some "<svg>old</svg>"
  /\ result_of run = inr tt
  /\ files (state_of run) !! "/repo/TarkovHelper/Assets/Maps/Factory.svg"
     = Some EmptyString.
Proof. cbv zeta. split; [by_evaluation|]. split; by_evaluation. Qed.

(** Counterexample to C1 as worded.  The markup of [Factory] is extracted and its
    file cannot be written, and yet the run does not end in an exception:
    it ends normally, names [Factory] among the failed targets, and saved
    [Woods] afterwards. *)
Lemma write_failure_does_not_abort_run :
  let maps := [factory; customs; woods] in
  let run := main_on site factory_read_only untouched posix_join OUT maps empty_disk in
  ~ (forall m content,
        m ∈ maps ->
        extraction site m = inr (Some content) ->
        is_Some (factory_read_only (output_path posix_join OUT m)) ->
        exists e, result_of run = inl e)
  /\ result_of run = inr tt
  /\ "Failed maps: Factory, Customs" ∈ printed (trace_of run)
  /\ files (state_of run) !! output_path posix_join OUT woods
     = Some (XML_HEADER +:+ icon_a).
Proof.
  cbv zeta.
  assert (result_of (main_on site factory_read_only untouched posix_join OUT
                       [factory; customs; woods] empty_disk) = inr tt) as Hr
    by by_evaluation.
  split; [|split; [exact Hr|split; [by_decision|by_evaluation]]].
  intros H. destruct (H factory svg_10001) as [e He].
  - apply elem_of_cons. by left.
  - by_evaluation.
  - eexists. by_evaluation.
  - rewrite Hr in He. discriminate He.
Qed.

(** On [Woods] the markup does not start with a declaration: the file has
    the declaration line, then the markup. *)
Lemma woods_written_with_declaration :
  let run := process_target site no_fault untouched posix_join OUT [factory; customs; woods]
               woods 0%nat [] {| page := about_blank; disk := empty_disk |} in
  files (disk (state_of run)) !! "/repo/TarkovHelper/Assets/Maps/Woods.svg"
  = Some (XML_HEADER +:+ icon_a)
  /\ xml_declarations (XML_HEADER +:+ icon_a) = 1%nat.
Proof.
  cbv zeta.
  destruct (written_content_starts_with_declaration site no_fault untouched posix_join OUT
              [factory; customs] [] woods 0%nat []
              {| page := about_blank; disk := empty_disk |} icon_a)
    as (Hfile & _ & Hnone & _).
  - by_evaluation.
  - reflexivity.
  - split; [exact Hfile|]. by_evaluation.
Defined.

(** Counterexample to C2 as worded.  The only [svg] of the page serializes to markup
    that starts with two XML declarations; it is extracted, and the file
    written for the target has the two declarations, not one. *)
Lemma twice_declared_is_written_twice_declared :
  let run := main_on site_twice_declared no_fault untouched posix_join OUT [factory] empty_disk in
  extraction site_twice_declared factory = inr (Some twice_declared)
  /\ files (state_of run) !! output_path posix_join OUT factory
     = Some twice_declared
  /\ xml_declarations twice_declared = 2%nat
  /\ ~ (forall content,
          files (state_of run) !! output_path posix_join OUT factory = Some content ->
          xml_declarations content = 1%nat).
Proof.
  cbv zeta.
  assert (files (state_of (main_on site_twice_declared no_fault untouched posix_join OUT
                             [factory] empty_disk))
            !! output_path posix_join OUT factory = Some twice_declared) as Hf
    by by_evaluation.
  split; [by_evaluation|]. split; [exact Hf|]. split; [by_evaluation|].
  intros H. specialize (H twice_declared Hf). vm_compute in H. discriminate H.
Qed.


(* ===================================================================== *)
(** * The further properties on concrete sites *)
(* ===================================================================== *)

Ltac by_cases_on_targets Hm :=
  repeat (apply elem_of_cons in Hm as [->|Hm]);
  [..|by apply elem_of_nil in Hm].

(** Under the container selector of the page with stale handles, the
    icon is serialized, then the stale handle raises: the map after it is
    not serialized. *)
Lemma stale_handle_hides_the_map :
  result_of (probe_elements ".map-container svg"
               [element icon_small; stale; element svg_12000]
               page_with_stale_handles)
  = inl (PlaywrightError "Element is not attached to the DOM")
  /\ serializations
       (trace_of (probe_elements ".map-container svg"
                    [element icon_small; stale; element svg_12000]
                    page_with_stale_handles)) = 2%nat.
Proof.
  apply (proj1 (probing_stops_at_first_accepted_or_stale
                  ".map-container svg" [element icon_small] [element svg_12000]
                  stale page_with_stale_handles
                  ltac:(repeat constructor; exists icon_small;
                        split; [reflexivity|by_decision]))).
  reflexivity.
Defined.

(** [Customs] does not load. *)
Lemma customs_does_not_load :
  result_of (extract_map_svg site customs page_with_map)
  = inl (TimeoutError "Timeout 30000ms exceeded.")
  /\ trace_of (extract_map_svg site customs page_with_map)
     = [Print "  Loading Customs..."; Goto "https://tarkov-market.com/maps/customs"].
Proof.
  apply (navigation_failure_leaves_at_once site customs page_with_map).
  by_evaluation.
Defined.

(** On the site with the broken script, [Woods] has no map: the
    extraction raises the exception of the script. *)
Lemma woods_with_broken_script :
  result_of (extract_map_svg site_script_broken woods about_blank)
  = inl (PlaywrightError "Execution context was destroyed")
  /\ queried (trace_of (extract_map_svg site_script_broken woods about_blank))
     = svg_selectors
  /\ script_runs (trace_of (extract_map_svg site_script_broken woods about_blank))
     = 1%nat.
Proof.
  apply (script_failure_leaves_the_extraction
           site_script_broken woods about_blank page_script_broken).
  - by_evaluation.
  - by_decision.
  - reflexivity.
Defined.

(** On the same site [Factory] has its map: it is extracted, the script is
    not run. *)
Lemma factory_with_broken_script :
  result_of (extract_map_svg site_script_broken factory about_blank)
  = inr (Some svg_10001)
  /\ script_runs (trace_of (extract_map_svg site_script_broken factory about_blank))
     = 0%nat
  /\ 10000 < len svg_10001.
Proof.
  apply (accepted_probe_skips_the_fallback
           site_script_broken factory about_blank page_map_script_broken svg_10001).
  - by_evaluation.
  - by_evaluation.
Defined.

(** The icon returned for [Woods] is one of the [svg] elements of its
    page. *)
Lemma woods_markup_is_one_icon :
  exists doc,
    site (url woods) = inr doc
    /\ 0 < len icon_a
    /\ ((exists selector,
           selector ∈ svg_selectors
           /\ icon_a ∈ examined doc selector
           /\ 10000 < len icon_a)
        \/ (Forall (nothing_accepted doc) svg_selectors
            /\ icon_a ∈ document_svgs doc)).
Proof.
  apply (extracted_markup_is_one_serialization site woods about_blank icon_a).
  by_evaluation.
Defined.

(** [Customs], which does not load, is recorded with an [ERROR] line. *)
Lemma customs_is_recorded_with_error_line :
  let run := process_target site no_fault untouched posix_join OUT
               [factory; customs; woods] customs 1%nat []
               {| page := page_with_map; disk := empty_disk |} in
  result_of run = inr (1%nat, ["Customs"])
  /\ disk (state_of run) = empty_disk
  /\ opened (trace_of run) = []
  /\ last (trace_of run)
     = Some (Print "  [ERROR] Error extracting Customs: Timeout 30000ms exceeded.").
Proof.
  apply (proj2 (failed_extraction_is_recorded_without_write
                  site no_fault untouched posix_join OUT [factory] [woods] customs 1%nat []
                  {| page := page_with_map; disk := empty_disk |})
           (TimeoutError "Timeout 30000ms exceeded.")).
  by_evaluation.
Defined.

(** In a list that names [Factory] twice, the second time shows the
    position of the first. *)
Lemma repeated_target_shows_first_position :
  exists i t,
    trace_of (process_target site no_fault untouched posix_join OUT
                [factory; customs; factory] factory 1%nat ["Customs"]
                {| page := about_blank; disk := empty_disk |})
    = Print (newline +:+ "[" +:+ pretty (i + 1)%nat +:+ "/"
               +:+ pretty 3%nat +:+ "] Extracting Factory...") :: t
    /\ (i < 2)%nat.
Proof.
  destruct (progress_counter_is_first_position
              site no_fault untouched posix_join OUT [factory; customs] [] factory
              1%nat ["Customs"] {| page := about_blank; disk := empty_disk |})
    as (i & t & Heq & _ & Hin).
  exists i, t. split; [exact Heq|]. apply Hin. by_decision.
Defined.

(** The three targets are visited in order, though [Customs] does not
    load. *)
Lemma targets_visited_with_customs_down :
  visited (trace_of (main_on site no_fault untouched posix_join OUT
                       [factory; customs; woods] empty_disk))
  = ["https://tarkov-market.com/maps/factory";
     "https://tarkov-market.com/maps/customs";
     "https://tarkov-market.com/maps/woods"].
Proof.
  apply (every_target_is_visited_once site no_fault untouched posix_join OUT
           [factory; customs; woods] empty_disk).
  right. reflexivity.
Defined.

(** With the file of [Factory] read-only, files are opened for [Factory]
    and [Woods], not for [Customs]. *)
Lemma files_opened_with_factory_read_only :
  opened (trace_of (main_on site factory_read_only untouched posix_join OUT
                      [factory; customs; woods] empty_disk))
  = omap (attempted_write site posix_join OUT) [factory; customs; woods]
  /\ omap (attempted_write site posix_join OUT) [factory; customs; woods]
     = ["/repo/TarkovHelper/Assets/Maps/Factory.svg";
        "/repo/TarkovHelper/Assets/Maps/Woods.svg"].
Proof.
  split; [|by_evaluation].
  apply (files_are_opened_for_extracted_targets site factory_read_only untouched posix_join OUT
           [factory; customs; woods] empty_disk).
  right. reflexivity.
Defined.

(** The browser is started and closed once on the run with [Customs]
    down. *)
Lemma browser_closed_with_customs_down :
  browser_events (trace_of (main_on site no_fault untouched posix_join OUT
                              [factory; customs; woods] empty_disk))
  = [BrowserLaunch; NewContext; NewPage; BrowserClose].
Proof.
  apply (proj1 (browser_is_closed_once site no_fault untouched posix_join OUT
                  [factory; customs; woods] empty_disk)).
  right. reflexivity.
Defined.

(** On the empty disk the run makes the output directory. *)
Lemma output_directory_made_on_empty_disk :
  OUT ∈ dirs (state_of (main_on site no_fault untouched posix_join OUT
                          [factory; customs; woods] empty_disk)).
Proof.
  apply (proj2 (output_directory_is_made_first site no_fault untouched posix_join OUT
                  [factory; customs; woods] empty_disk)).
  right. reflexivity.
Defined.

(** The file an earlier run saved for [Customs] is still there after a run
    in which [Customs] does not load. *)
Lemma old_customs_file_survives :
  files (state_of (main_on site no_fault untouched posix_join OUT
                     [factory; customs; woods] disk_with_old_files))
    !! "/repo/TarkovHelper/Assets/Maps/Customs.svg"
  = Some "<svg>old</svg>".
Proof.
  rewrite (run_leaves_other_files site no_fault untouched posix_join OUT
             [factory; customs; woods] disk_with_old_files
             "/repo/TarkovHelper/Assets/Maps/Customs.svg").
  - by_evaluation.
  - intros m content Hm Hp Hx. by_cases_on_targets Hm.
    + vm_compute in Hp. discriminate Hp.
    + vm_compute in Hx. discriminate Hx.
    + vm_compute in Hp. discriminate Hp.
Defined.

(** After the run with [Customs] down the file of [Factory] holds the
    declaration line and the map. *)
Lemma factory_file_after_the_run :
  files (state_of (main_on site no_fault untouched posix_join OUT
                     [factory; customs; woods] empty_disk))
    !! "/repo/TarkovHelper/Assets/Maps/Factory.svg"
  = Some (XML_HEADER +:+ svg_10001).
Proof.
  apply (saved_file_holds_the_markup site no_fault untouched posix_join OUT
           [] [customs; woods] factory empty_disk svg_10001).
  - right. reflexivity.
  - by_evaluation.
  - reflexivity.
  - intros m Hm Hp. by_cases_on_targets Hm.
    + vm_compute in Hp. discriminate Hp.
    + vm_compute in Hp. discriminate Hp.
Defined.

(** On the site where every page has its map the summary counts three of
    three. *)
Lemma summary_on_site_up :
  exists lines,
    printed (trace_of (main_on site_up no_fault untouched posix_join OUT
                         [factory; customs; woods] empty_disk))
    = lines ++ [newline +:+ str_repeat "=" 60; "Extraction Complete!";
                str_repeat "=" 60; "Successfully extracted: 3/3 maps";
                newline +:+ "Maps saved to: /repo/TarkovHelper/Assets/Maps"].
Proof.
  apply (summary_without_failures site_up no_fault untouched posix_join OUT
           [factory; customs; woods] empty_disk).
  - right. reflexivity.
  - intros m _. exists svg_10001. by_evaluation.
  - intros m _. reflexivity.
Defined.

(** On the site that does not answer nothing is written and the three
    targets are named as failed. *)
Lemma run_on_site_down :
  let run := main_on site_down no_fault untouched posix_join OUT
               [factory; customs; woods] disk_with_old_files in
  result_of run = inr tt
  /\ files (state_of run) = files disk_with_old_files
  /\ opened (trace_of run) = []
  /\ exists lines,
       printed (trace_of run)
       = lines ++ [newline +:+ str_repeat "=" 60; "Extraction Complete!";
                   str_repeat "=" 60; "Successfully extracted: 0/3 maps";
                   "Failed maps: Factory, Customs, Woods";
                   newline +:+ "Maps saved to: /repo/TarkovHelper/Assets/Maps"].
Proof.
  apply (run_with_every_target_failing site_down no_fault untouched posix_join OUT
           [factory; customs; woods] disk_with_old_files).
  - left. by_decision.
  - intros m content _ H. vm_compute in H. discriminate H.
Defined.

(** The file that is no target's is still there after a run. *)
Lemma readme_is_still_there :
  is_Some (files (state_of (main_on site no_fault untouched posix_join OUT
                              [factory; customs; woods] disk_with_old_files))
             !! "/repo/README.md").
Proof.
  apply (proj1 (run_removes_nothing site no_fault untouched posix_join OUT
                  [factory; customs; woods] disk_with_old_files
                  "/repo/README.md")).
  by_decision.
Defined.
